(** * Property synchronisation scripts: a shallow embedding

    The repository holds three scripts that page through a municipal
    ArcGIS feature service and upsert the parcels into one PostgreSQL
    table:

    - [backend/data/auckland/download.py]  ([sync_auckland_to_neon],
      [parse_area_label], [parse_auckland_address]),
    - [backend/data/qldc/download.py]      ([sync_arcgis_to_neon]),
    - [backend/data/wellington/download.py] ([sync_wellington_to_neon]).

    Python strings are lists of Unicode code points, Python values are a
    small tagged union, exceptions are an error monad, the [properties]
    table is a finite map keyed by [object_id], and the connection is a
    pair of a committed and an uncommitted table. *)

From Stdlib Require Import ZArith NArith Lia List Bool String Ascii DecimalString.
From stdpp Require Import base option list gmap.

Open Scope N_scope.

(** ** Strings *)

Module Str.

(** A Python [str] is a sequence of code points. *)
Abbreviation str := (list N).

(** Literals: an ASCII literal read as code points. *)
Fixpoint u (s : string) : str :=
  match s with
  | EmptyString => []
  | String a s' => N_of_ascii a :: u s'
  end.

(** [str.isspace] for one code point ([Py_UNICODE_ISSPACE]). *)
Definition isspace (c : N) : bool :=
  ((9 <=? c) && (c <=? 13)) || ((28 <=? c) && (c <=? 32))
  || (c =? 133) || (c =? 160) || (c =? 5760)
  || ((8192 <=? c) && (c <=? 8202))
  || (c =? 8232) || (c =? 8233) || (c =? 8239) || (c =? 8287) || (c =? 12288).

(** The line boundaries of [str.splitlines]. *)
Definition islinebreak (c : N) : bool :=
  ((10 <=? c) && (c <=? 13)) || ((28 <=? c) && (c <=? 30))
  || (c =? 133) || (c =? 8232) || (c =? 8233).

(** First code points of the runs of decimal digits (general category Nd,
    Unicode 14.0 as shipped with CPython 3.11).  Every run holds the digits
    zero to nine in order; the mathematical digits from 120782 on are five
    such runs in a row. *)
Definition decimal_zeros : list N :=
  [48; 1632; 1776; 1984; 2406; 2534; 2662; 2790; 2918; 3046; 3174; 3302;
   3430; 3558; 3664; 3792; 3872; 4160; 4240; 6112; 6160; 6470; 6608; 6784;
   6800; 6992; 7088; 7232; 7248; 42528; 43216; 43264; 43472; 43504; 43600;
   44016; 65296; 66720; 68912; 69734; 69872; 69942; 70096; 70384; 70736;
   70864; 71248; 71360; 71472; 71904; 72016; 72784; 73040; 73120; 92768;
   92864; 93008; 120782; 120792; 120802; 120812; 120822; 123200; 123632;
   125264; 130032].

(** [Py_UNICODE_TODECIMAL]: the digit value, [None] for a non-digit. *)
Definition todecimal (c : N) : option N :=
  match List.find (fun z => (z <=? c) && (c <? z + 10)) decimal_zeros with
  | Some z => Some (c - z)
  | None => None
  end.

(** [\d] of the [re] module on a [str] pattern ([Py_UNICODE_ISDECIMAL]). *)
Definition isdecimal (c : N) : bool :=
  match todecimal c with Some _ => true | None => false end.

Fixpoint drop_while (p : N -> bool) (s : str) : str :=
  match s with
  | [] => []
  | c :: t => if p c then drop_while p t else s
  end.

Fixpoint take_while (p : N -> bool) (s : str) : str :=
  match s with
  | [] => []
  | c :: t => if p c then c :: take_while p t else []
  end.

Definition lstrip (s : str) : str := drop_while isspace s.
Definition rstrip (s : str) : str := rev (drop_while isspace (rev s)).

(** [s.strip()] *)
Definition strip (s : str) : str := rstrip (lstrip s).

(** [s.splitlines()]: [cur] is the line read so far (reversed), [after_cr]
    tells that the previous code point was a carriage return, so that a
    line feed coming next belongs to the same boundary.  No line is produced
    for the empty remainder after the last boundary. *)
Fixpoint splitlines_from (cur : str) (after_cr : bool) (s : str) : list str :=
  match s with
  | [] => match cur with [] => [] | _ => [rev cur] end
  | c :: t =>
      if after_cr && (c =? 10) then splitlines_from [] false t
      else if islinebreak c then rev cur :: splitlines_from [] (c =? 13) t
      else splitlines_from (c :: cur) false t
  end.

Definition splitlines (s : str) : list str := splitlines_from [] false s.

(** [sep.join(parts)] *)
Fixpoint join (sep : str) (parts : list str) : str :=
  match parts with
  | [] => []
  | [p] => p
  | p :: ps => p ++ sep ++ join sep ps
  end.

(** [str(n)] for an integer. *)
Fixpoint uint_digits (d : Decimal.uint) : str :=
  match d with
  | Decimal.Nil => []
  | Decimal.D0 d => 48 :: uint_digits d
  | Decimal.D1 d => 49 :: uint_digits d
  | Decimal.D2 d => 50 :: uint_digits d
  | Decimal.D3 d => 51 :: uint_digits d
  | Decimal.D4 d => 52 :: uint_digits d
  | Decimal.D5 d => 53 :: uint_digits d
  | Decimal.D6 d => 54 :: uint_digits d
  | Decimal.D7 d => 55 :: uint_digits d
  | Decimal.D8 d => 56 :: uint_digits d
  | Decimal.D9 d => 57 :: uint_digits d
  end.

Definition str_of_int (z : Z) : str :=
  match z with
  | Z0 => [48]
  | Zpos p => uint_digits (Pos.to_uint p)
  | Zneg p => 45 :: uint_digits (Pos.to_uint p)
  end.

End Str.
Import Str.

(** ** Python values and exceptions *)

(** A binary64 float, named by the decimal it was read from:
    [FDec neg m e] is the float nearest to [(-1)^neg * m * 10^e].  The
    rounding itself is not part of the model. *)
Inductive pyfloat : Type :=
  | FDec (neg : bool) (mant : N) (exp10 : Z)
  | FInf (neg : bool)
  | FNan.

(** The values [response.json()] puts into a feature's attributes.  Of an
    array or an object the scripts observe only the type and the
    truthiness. *)
Inductive pyval : Type :=
  | PNone
  | PBool (b : bool)
  | PInt (z : Z)
  | PFloat (f : pyfloat)
  | PStr (s : str)
  | PSeq (nonempty : bool).

Inductive exn : Type :=
  | TypeError | ValueError | OverflowError | IndexError | KeyError
  | AttributeError | ZeroDivisionError.

(** A computation that returns or raises. *)
Inductive res (A : Type) : Type :=
  | Ok (a : A)
  | Raise (e : exn).
Arguments Ok {A} a.
Arguments Raise {A} e.

#[global] Instance res_bind : MBind res := fun A B k m =>
  match m with
  | Ok a => k a
  | Raise e => Raise e
  end.

Definition raises {A} (m : res A) : Prop := exists e, m = Raise e.

(** [for x in xs: ... f(x) ...], stopping at the first exception. *)
Fixpoint res_map {A B} (f : A -> res B) (xs : list A) : res (list B) :=
  match xs with
  | [] => Ok []
  | x :: t => y ← f x; ys ← res_map f t; Ok (y :: ys)
  end.

(** A float is zero when its decimal is at most half the least subnormal,
    [2^-1075]. *)
Definition float_is_zero (f : pyfloat) : bool :=
  match f with
  | FDec _ m e =>
      if (0 <=? e)%Z then m =? 0
      else (Z.of_N m * 2 ^ 1075 <=? 10 ^ (- e))%Z
  | _ => false
  end.

(** [bool(v)], as in [if v:] and [not v]. *)
Definition truthy (v : pyval) : bool :=
  match v with
  | PNone => false
  | PBool b => b
  | PInt z => negb (z =? 0)%Z
  | PFloat f => negb (float_is_zero f)
  | PStr s => match s with [] => false | _ => true end
  | PSeq b => b
  end.

(** *** [float(s)] on a string *)

Definition isasciidigit (c : N) : bool := (48 <=? c) && (c <=? 57).

(** [Py_ISSPACE] *)
Definition isasciispace (c : N) : bool :=
  ((9 <=? c) && (c <=? 13)) || (c =? 32).

Definition digits_value (ds : str) : N :=
  fold_left (fun acc d => 10 * acc + (d - 48)) ds 0.

(** [_PyUnicode_TransformDecimalAndSpaceToASCII]: code points below 127 are
    kept, other white space becomes a blank, other decimal digits their
    ASCII digit; at anything else the text is cut after a question mark. *)
Fixpoint to_ascii_decimal (s : str) : str :=
  match s with
  | [] => []
  | c :: t =>
      if c <? 127 then c :: to_ascii_decimal t
      else if isspace c then 32 :: to_ascii_decimal t
      else match todecimal c with
           | Some d => (48 + d) :: to_ascii_decimal t
           | None => [63]
           end
  end.

(** Underscores may only stand between two digits; they are dropped.
    [prev] is the previous character (0 at the start). *)
Fixpoint drop_underscores (prev : N) (s : str) : option str :=
  match s with
  | [] => if prev =? 95 then None else Some []
  | c :: t =>
      if c =? 95 then
        if isasciidigit prev then drop_underscores c t else None
      else if (prev =? 95) && negb (isasciidigit c) then None
      else match drop_underscores c t with
           | Some r => Some (c :: r)
           | None => None
           end
  end.

Definition read_sign (s : str) : bool * str :=
  match s with
  | c :: t =>
      if c =? 45 then (true, t)
      else if c =? 43 then (false, t)
      else (false, s)
  | [] => (false, s)
  end.

(** The exponent part: [e] or [E], an optional sign and at least one digit;
    otherwise nothing is consumed. *)
Definition read_exponent (s : str) : Z * str :=
  match s with
  | c :: t =>
      if (c =? 101) || (c =? 69) then
        let '(eneg, t1) := read_sign t in
        match take_while isasciidigit t1 with
        | [] => (0%Z, s)
        | ed => ((if eneg then - Z.of_N (digits_value ed) else Z.of_N (digits_value ed))%Z,
                 drop_while isasciidigit t1)
        end
      else (0%Z, s)
  | [] => (0%Z, s)
  end.

(** [_Py_dg_strtod]: sign, digits, optional point and digits, optional
    exponent.  Gives the float and the unread rest; [None] when no digit
    was read. *)
Definition strtod (s : str) : option (pyfloat * str) :=
  let '(neg, s1) := read_sign s in
  let ip := take_while isasciidigit s1 in
  let s2 := drop_while isasciidigit s1 in
  let '(fp, s3) :=
    match s2 with
    | c :: t =>
        if c =? 46 then (take_while isasciidigit t, drop_while isasciidigit t)
        else ([], s2)
    | [] => ([], s2)
    end in
  match ip ++ fp with
  | [] => None
  | ds =>
      let '(e, s4) := read_exponent s3 in
      Some (FDec neg (digits_value ds) (e - Z.of_nat (length fp)), s4)
  end.

Definition tolower (c : N) : N :=
  if (65 <=? c) && (c <=? 90) then c + 32 else c.

(** [case_insensitive_match]: [s] starts with the lower-case word [w]. *)
Fixpoint starts_with_ci (w s : str) : option str :=
  match w, s with
  | [], _ => Some s
  | a :: w', c :: s' => if tolower c =? a then starts_with_ci w' s' else None
  | _ :: _, [] => None
  end.

(** [_Py_parse_inf_or_nan] *)
Definition parse_inf_or_nan (s : str) : option (pyfloat * str) :=
  let '(neg, s1) := read_sign s in
  match starts_with_ci (u "inf") s1 with
  | Some s2 =>
      match starts_with_ci (u "inity") s2 with
      | Some s3 => Some (FInf neg, s3)
      | None => Some (FInf neg, s2)
      end
  | None =>
      match starts_with_ci (u "nan") s1 with
      | Some s2 => Some (FNan, s2)
      | None => None
      end
  end.

(** [float_from_string_inner]: the whole text must be read. *)
Definition float_inner (s : str) : res pyfloat :=
  match strtod s with
  | Some (f, []) => Ok f
  | Some (_, _ :: _) => Raise ValueError
  | None =>
      match parse_inf_or_nan s with
      | Some (f, []) => Ok f
      | _ => Raise ValueError
      end
  end.

(** [float(s)] for a [str]. *)
Definition float_of_str (s : str) : res pyfloat :=
  let a := to_ascii_decimal s in
  let b := rev (drop_while isasciispace (rev (drop_while isasciispace a))) in
  match b with
  | [] => Raise ValueError
  | _ =>
      if existsb (N.eqb 95) b then
        match drop_underscores 0 b with
        | Some c => float_inner c
        | None => Raise ValueError
        end
      else float_inner b
  end.

(** [float(v)] *)
Definition int_fits_float (z : Z) : bool :=
  (Z.abs z <? 2 ^ 1024 - 2 ^ 970)%Z.

Definition float_of_int (z : Z) : res pyfloat :=
  if int_fits_float z then Ok (FDec (z <? 0)%Z (Z.abs_N z) 0)
  else Raise OverflowError.

Definition py_float (v : pyval) : res pyfloat :=
  match v with
  | PInt z => float_of_int z
  | PBool b => Ok (FDec false (if b then 1 else 0) 0)
  | PFloat f => Ok f
  | PStr s => float_of_str s
  | PNone | PSeq _ => Raise TypeError
  end.

(** [try: m except (ValueError, TypeError): h] and the like. *)
Definition try_except {A} (m : res A) (caught : exn -> bool) (h : res A) : res A :=
  match m with
  | Ok a => Ok a
  | Raise e => if caught e then h else Raise e
  end.

Definition value_or_type_error (e : exn) : bool :=
  match e with ValueError | TypeError => true | _ => false end.

(** ** Auckland: area labels and addresses *)

Definition isinstance_str (v : pyval) : bool :=
  match v with PStr _ => true | _ => false end.

(** The area pattern (one or more [\d], an optional point, any number of
    [\d]) matched at the head of [s]: the digits, a point if one follows,
    and the digits after it. *)
Definition match_number (s : str) : option str :=
  match take_while isdecimal s with
  | [] => None
  | ds =>
      match drop_while isdecimal s with
      | c :: t =>
          if c =? 46 then Some (ds ++ c :: take_while isdecimal t)
          else Some ds
      | [] => Some ds
      end
  end.

(** [re.search] of the area pattern in [s]: group 1 of the leftmost
    match. *)
Fixpoint search_number (s : str) : option str :=
  match match_number s with
  | Some m => Some m
  | None => match s with [] => None | _ :: t => search_number t end
  end.

Definition parse_area_label (label : pyval) : res pyval :=
  if negb (truthy label) || negb (isinstance_str label) then Ok PNone
  else
    match label with
    | PStr s =>
        match search_number s with
        | Some m =>
            try_except (f ← float_of_str m; Ok (PFloat f))
                       value_or_type_error (Ok PNone)
        | None => Ok PNone
        end
    | _ => Ok PNone
    end.

(** [$] without [re.MULTILINE]: the end of the text, or just before a line
    feed that ends it. *)
Definition at_dollar (s : str) : bool :=
  match s with
  | [] => true
  | [c] => c =? 10
  | _ => false
  end.

(** [(\d{4})$] at the head of [s]. *)
Definition match_postcode (s : str) : bool :=
  match s with
  | a :: b :: c :: d :: rest =>
      isdecimal a && isdecimal b && isdecimal c && isdecimal d && at_dollar rest
  | _ => false
  end.

(** [re.search(r'(\d{4})$', s)]: [start()] of the leftmost match, counted
    from [pos]. *)
Fixpoint search_postcode (pos : nat) (s : str) : option nat :=
  if match_postcode s then Some pos
  else match s with [] => None | _ :: t => search_postcode (S pos) t end.

Record address : Type := Address {
  street : option str;
  locality : option str;
  postcode : option str
}.

(** [[part.strip() for part in s.splitlines() if part.strip()]] *)
Definition address_parts (s : str) : list str :=
  map strip (List.filter (fun part => truthy (PStr (strip part))) (splitlines s)).

Definition parse_auckland_address (address_string : pyval) : address :=
  if negb (truthy address_string) || negb (isinstance_str address_string)
  then Address None None None
  else
    match address_string with
    | PStr s =>
        let parts := address_parts s in
        let street := head parts in
        if (1 <? length parts)%nat then
          let last_part := List.last parts [] in
          match search_postcode 0 last_part with
          | Some start =>
              Address street (Some (strip (firstn start last_part)))
                      (Some (firstn 4 (skipn start last_part)))
          | None => Address street (Some last_part) None
          end
        else Address street None None
    | _ => Address None None None
    end.

(** *** The decomposition and the area parsing in the specification's words *)

(** Split at every line break. *)
Fixpoint split_on_linebreaks (cur : str) (s : str) : list str :=
  match s with
  | [] => [rev cur]
  | c :: t =>
      if islinebreak c then rev cur :: split_on_linebreaks [] t
      else split_on_linebreaks (c :: cur) t
  end.

(** The lines, trimmed, without the blank ones. *)
Definition nonblank_lines (s : str) : list str :=
  List.filter (fun l => negb (Nat.eqb (length l) 0))
              (map strip (split_on_linebreaks [] s)).

(** A line that ends in four digits: what stands before them, and them. *)
Definition trailing_postcode (line : str) : option (str * str) :=
  let n := length line in
  let token := skipn (n - 4) line in
  if (4 <=? n)%nat && forallb isdecimal token
  then Some (firstn (n - 4) line, token)
  else None.

Definition decompose_address (s : str) : address :=
  match nonblank_lines s with
  | [] => Address None None None
  | [first] => Address (Some first) None None
  | first :: rest =>
      let final := List.last rest [] in
      match trailing_postcode final with
      | Some (before, token) => Address (Some first) (Some (strip before)) (Some token)
      | None => Address (Some first) (Some final) None
      end
  end.

(** The numeric substring at the head of [s]: digits, and a point with the
    digits after it when a point follows. *)
Definition numeric_prefix (s : str) : str :=
  take_while isdecimal s ++
  match drop_while isdecimal s with
  | c :: t => if c =? 46 then c :: take_while isdecimal t else []
  | [] => []
  end.

(** The first numeric substring of a label: it starts at the first digit. *)
Definition first_number (s : str) : option str :=
  match drop_while (fun c => negb (isdecimal c)) s with
  | [] => None
  | t => Some (numeric_prefix t)
  end.

(** The ASCII digit of the same value as a decimal digit. *)
Definition asc (c : N) : N := 48 + default 0 (todecimal c).

Definition digit_values (ds : str) : N :=
  fold_left (fun acc c => 10 * acc + default 0 (todecimal c)) ds 0.

(** The number a numeric substring writes. *)
Definition decimal_value (token : str) : pyfloat :=
  let fraction :=
    match drop_while isdecimal token with
    | c :: t => if c =? 46 then t else []
    | [] => []
    end in
  FDec false (digit_values (take_while isdecimal token ++ fraction))
       (- Z.of_nat (length fraction)).

(** ** Features and their normalisation *)

(** What [d.get(key, default)] may find: no such key, a JSON null, or a
    value of the expected shape. *)
Inductive field (A : Type) : Type :=
  | Absent
  | Null
  | Present (a : A).
Arguments Absent {A}.
Arguments Null {A}.
Arguments Present {A} a.

(** A coordinate is a JSON number. *)
Inductive number : Type :=
  | NInt (z : Z)
  | NFloat (f : pyfloat).

(** The geometry object: its ['rings'] entry, when it has one, is a list of
    rings, a ring a list of points, a point a list of numbers. *)
Record geometry : Type := Geometry {
  rings : option (list (list (list number)))
}.

Record feature : Type := Feature {
  attributes : field (gmap str pyval);
  geometry_of : field geometry
}.

(** Calendar dates as days since 1970-01-01, instants as microseconds since
    the epoch. *)
Abbreviation date := Z.
Abbreviation timestamp := Z.

(** One tuple of [all_values], in the column order of [temp_properties]. *)
Record values : Type := Values {
  v_object_id : pyval;
  v_property_no : pyval;
  v_physical_address : pyval;
  v_street : pyval;
  v_locality : pyval;
  v_postcode : pyval;
  v_land_value : pyval;
  v_capital_value : pyval;
  v_improvements_value : pyval;
  v_land_use_description : pyval;
  v_property_type_description : pyval;
  v_survey_area : pyval;
  v_calculated_area : pyval;
  v_valuation_date : option date;
  v_last_updated : timestamp;
  v_district : option str;
  v_geometry_wkt : option str
}.

(** [attributes.get(key)] *)
Definition attr_get (d : gmap str pyval) (key : string) : pyval :=
  default PNone (d !! u key).

Definition of_option_str (o : option str) : pyval :=
  match o with Some s => PStr s | None => PNone end.

(** [for x, y in ring]: a point unpacks into exactly two values. *)
Definition unpack_pair (pt : list number) : res (number * number) :=
  match pt with
  | [x; y] => Ok (x, y)
  | _ => Raise ValueError
  end.

(** [datetime.fromtimestamp(t, tz=timezone.utc).date()].  The valid dates
    run from 0001-01-01 to 9999-12-31. *)
Definition min_date : date := (-719162)%Z.
Definition max_date : date := 2932896%Z.

Definition fromtimestamp_date (t : pyfloat) : res date :=
  match t with
  | FDec neg m e =>
      let n := (if neg then - Z.of_N m else Z.of_N m)%Z in
      let days := (if 0 <=? e then (n * 10 ^ e) / 86400
                   else n / (86400 * 10 ^ (- e)))%Z in
      if (min_date <=? days)%Z && (days <=? max_date)%Z then Ok days
      else Raise ValueError
  | FInf _ => Raise OverflowError
  | FNan => Raise ValueError
  end.

(** [v / 1000.0] *)
Definition div_1000 (v : pyval) : res pyfloat :=
  match v with
  | PInt z =>
      f ← float_of_int z;
      match f with
      | FDec neg m e => Ok (FDec neg m (e - 3))
      | _ => Ok f
      end
  | PBool b => Ok (FDec false (if b then 1 else 0) (-3))
  | PFloat (FDec neg m e) => Ok (FDec neg m (e - 3))
  | PFloat f => Ok f
  | PNone | PStr _ | PSeq _ => Raise TypeError
  end.

Section Normalise.

(** [repr] of a float, as [f"{x}"] prints a coordinate. *)
Variable float_repr : pyfloat -> str.

(** [datetime.strptime(s, "%d/%m/%Y").date()] *)
Variable strptime_dmy : str -> res date.

(** [f"{x}"] *)
Definition format_number (x : number) : str :=
  match x with
  | NInt z => str_of_int z
  | NFloat f => float_repr f
  end.

(** [f"{x} {y}"] *)
Definition coord_pair (pt : list number) : res str :=
  '(x, y) ← unpack_pair pt;
  Ok (format_number x ++ u " " ++ format_number y).

(** The geometry encoder shared by the three scripts:
<<
  wkt_string = None
  if geometry and 'rings' in geometry:
      ring = geometry['rings'][0]
      coord_pairs = [f"{x} {y}" for x, y in ring]
      wkt_string = f"POLYGON(({', '.join(coord_pairs)}))"
>>
    A missing ['geometry'] defaults to the empty dict, which is falsy, as
    is a null. *)
Definition wkt_string (g : field geometry) : res (option str) :=
  match g with
  | Present (Geometry (Some rs)) =>
      match rs with
      | [] => Raise IndexError
      | ring :: _ =>
          coord_pairs ← res_map coord_pair ring;
          Ok (Some (u "POLYGON((" ++ join (u ", ") coord_pairs ++ u "))"))
      end
  | _ => Ok None
  end.

(** [feature.get('attributes', {})] followed by a [.get] on the result. *)
Definition attributes_get (f : feature) : res (gmap str pyval) :=
  match attributes f with
  | Absent => Ok ∅
  | Null => Raise AttributeError
  | Present d => Ok d
  end.

(** [f['attributes']] followed by a [.get] on the result. *)
Definition attributes_item (f : feature) : res (gmap str pyval) :=
  match attributes f with
  | Absent => Raise KeyError
  | Null => Raise AttributeError
  | Present d => Ok d
  end.

(** The body of [for feature in features:] in [sync_auckland_to_neon];
    [None] is the [continue] taken for a feature without OBJECTID. *)
Definition normalize_auckland (now : timestamp) (f : feature) : res (option values) :=
  attrs ← attributes_get f;
  let object_id := attr_get attrs "OBJECTID" in
  match object_id with
  | PNone => Ok None
  | _ =>
      wkt ← wkt_string (geometry_of f);
      let full_address := attr_get attrs "FORMATTEDADDRESS" in
      let parsed_address := parse_auckland_address full_address in
      let valuation_date_ms := attr_get attrs "LATESTVALUATIONDATE" in
      valuation_date ←
        (if truthy valuation_date_ms then
           t ← div_1000 valuation_date_ms;
           d ← fromtimestamp_date t;
           Ok (Some d)
         else Ok None);
      survey_area ← parse_area_label (attr_get attrs "AREALABEL");
      Ok (Some (Values
        object_id
        (attr_get attrs "RATESASSESSMENTNUM")
        full_address
        (of_option_str (street parsed_address))
        (of_option_str (locality parsed_address))
        (of_option_str (postcode parsed_address))
        (attr_get attrs "LLV")
        (attr_get attrs "LCV")
        (attr_get attrs "LIV")
        (attr_get attrs "LANDUSEDESCRIPTION")
        (attr_get attrs "IMPROVEMENT")
        survey_area
        PNone
        valuation_date
        now
        None
        wkt))
  end.

(** The same loop body in [sync_arcgis_to_neon] (Queenstown Lakes). *)
Definition normalize_qldc (now : timestamp) (f : feature) : res (option values) :=
  attrs ← attributes_get f;
  let object_id := attr_get attrs "OBJECTID" in
  match object_id with
  | PNone => Ok None
  | _ =>
      wkt ← wkt_string (geometry_of f);
      Ok (Some (Values
        object_id
        (attr_get attrs "PROPERTY_NO")
        (attr_get attrs "PHYSADDRESS")
        (attr_get attrs "STREET")
        (attr_get attrs "LOCALITY")
        (attr_get attrs "POSTCODE")
        (attr_get attrs "LAND_VALUE")
        (attr_get attrs "CAPITAL_VALUE")
        (attr_get attrs "IMPROVEMENTS_VALUE")
        (attr_get attrs "LANDUSEDESCRIPTION")
        (attr_get attrs "PROPERTY_TYPE_DESC")
        (attr_get attrs "survey_area")
        (attr_get attrs "calc_area")
        None
        now
        None
        wkt))
  end.

(** The date of [sync_wellington_to_neon], inside its bare [try]/[except]:
    every exception gives [None]. *)
Definition wellington_date (raw_date : pyval) : option date :=
  if truthy raw_date then
    match raw_date with
    | PStr s => match strptime_dmy s with Ok d => Some d | Raise _ => None end
    | _ => None
    end
  else None.

(** The body of [for f in features:] in [sync_wellington_to_neon]; no
    feature is skipped there. *)
Definition normalize_wellington (now : timestamp) (f : feature) : res values :=
  attr ← attributes_item f;
  let object_id := attr_get attr "OBJECTID" in
  wkt ← wkt_string (geometry_of f);
  let valuation_date := wellington_date (attr_get attr "ValuationDate") in
  survey_area ←
    (if truthy (attr_get attr "LandArea") then
       x ← py_float (attr_get attr "LandArea"); Ok (PFloat x)
     else Ok PNone);
  Ok (Values
    object_id
    (attr_get attr "AssessmentNumber")
    (attr_get attr "FullAddress")
    (attr_get attr "StreetName")
    (attr_get attr "Suburb")
    (attr_get attr "PostCode")
    (attr_get attr "LandValue")
    (attr_get attr "CapitalValue")
    (attr_get attr "ImprovementsValue")
    (attr_get attr "LegalDescription")
    (attr_get attr "Title")
    survey_area
    PNone
    valuation_date
    now
    (Some (u "Wellington"))
    wkt).

(** [all_values]: the tuples of the features that were not skipped.  The
    clock is read once per feature. *)
Fixpoint all_values (normalize : timestamp -> feature -> res (option values))
    (clock : nat -> timestamp) (i : nat) (features : list feature) : res (list values) :=
  match features with
  | [] => Ok []
  | f :: rest =>
      v ← normalize (clock i) f;
      vs ← all_values normalize clock (S i) rest;
      Ok (match v with Some x => x :: vs | None => vs end)
  end.

End Normalise.

(** ** The tables and the upsert statement *)

Module Sql.

(** The columns of [properties] other than its primary key.  [G] is the
    type of the geometry column: the literal text in [temp_properties],
    the spatial value in [properties]. *)
Record columns (numeric G : Type) : Type := Columns {
  property_no : option Z;
  physical_address : option str;
  street : option str;
  locality : option str;
  postcode : option str;
  land_value : option numeric;
  capital_value : option numeric;
  improvements_value : option numeric;
  land_use_description : option str;
  property_type_description : option str;
  survey_area : option numeric;
  calculated_area : option numeric;
  valuation_date : option date;
  last_updated : timestamp;
  district : option str;
  geom : G
}.
Arguments Columns {numeric G}.
Arguments property_no {numeric G} c.
Arguments physical_address {numeric G} c.
Arguments street {numeric G} c.
Arguments locality {numeric G} c.
Arguments postcode {numeric G} c.
Arguments land_value {numeric G} c.
Arguments capital_value {numeric G} c.
Arguments improvements_value {numeric G} c.
Arguments land_use_description {numeric G} c.
Arguments property_type_description {numeric G} c.
Arguments survey_area {numeric G} c.
Arguments calculated_area {numeric G} c.
Arguments valuation_date {numeric G} c.
Arguments last_updated {numeric G} c.
Arguments district {numeric G} c.
Arguments geom {numeric G} c.

(** A row of [temp_properties]: nothing is declared NOT NULL there. *)
Record staged (numeric : Type) : Type := Staged {
  object_id : option Z;
  cols : columns numeric (option str)
}.
Arguments Staged {numeric}.
Arguments object_id {numeric} s.
Arguments cols {numeric} s.

(** Why PostgreSQL aborts the statement. *)
Inductive pgerror : Type :=
  | DataError             (* a value does not fit its column *)
  | InvalidGeometry       (* ST_GeomFromText rejects the literal *)
  | NotNullViolation      (* NULL in the primary key *)
  | CardinalityViolation. (* ON CONFLICT DO UPDATE cannot affect row a second time *)

Section Store.

Context {numeric geometry : Type} `{EqDecision numeric}.

(** The parser behind [ST_GeomFromText(text, 2193)]; [None] when it raises. *)
Variable geom_from_text : str -> option geometry.

(** [properties], keyed by [object_id]. *)
Abbreviation row := (columns numeric (option geometry)).
Abbreviation table := (gmap Z row).

(** [a IS DISTINCT FROM b] *)
Definition is_distinct_from {A} `{EqDecision A} (a b : option A) : bool :=
  match a, b with
  | None, None => false
  | None, Some _ => true
  | Some _, None => true
  | Some x, Some y => negb (bool_decide (x = y))
  end.

(** [ST_GeomFromText(geometry_wkt, 2193)] is strict: NULL gives NULL. *)
Definition ST_GeomFromText (wkt : option str) : pgerror + option geometry :=
  match wkt with
  | None => inr None
  | Some s =>
      match geom_from_text s with
      | Some g => inr (Some g)
      | None => inl InvalidGeometry
      end
  end.

(** The SELECT list: a staged row as a row proposed for insertion. *)
Definition proposed (c : columns numeric (option str)) (g : option geometry) : row :=
  Columns (property_no c) (physical_address c) (street c) (locality c)
          (postcode c) (land_value c) (capital_value c) (improvements_value c)
          (land_use_description c) (property_type_description c)
          (survey_area c) (calculated_area c) (valuation_date c)
          (last_updated c) (district c) g.

(** The WHERE clause of the three scripts; it reads no geometry. *)
Definition where_clause {G G'} (properties : columns numeric G)
    (EXCLUDED : columns numeric G') : bool :=
  is_distinct_from (capital_value properties) (capital_value EXCLUDED)
  || is_distinct_from (physical_address properties) (physical_address EXCLUDED).

(** DO UPDATE SET of [sync_auckland_to_neon] *)
Definition auckland_set (properties EXCLUDED : row) : row :=
  Columns (property_no EXCLUDED) (physical_address EXCLUDED) (street EXCLUDED)
          (locality EXCLUDED) (postcode EXCLUDED) (land_value properties)
          (capital_value EXCLUDED) (improvements_value properties)
          (land_use_description properties)
          (property_type_description properties) (survey_area properties)
          (calculated_area properties) (valuation_date EXCLUDED)
          (last_updated EXCLUDED) (district properties) (geom EXCLUDED).

(** DO UPDATE SET of [sync_arcgis_to_neon] *)
Definition qldc_set (properties EXCLUDED : row) : row :=
  Columns (property_no EXCLUDED) (physical_address EXCLUDED) (street properties)
          (locality properties) (postcode properties) (land_value properties)
          (capital_value EXCLUDED) (improvements_value properties)
          (land_use_description properties)
          (property_type_description properties) (survey_area properties)
          (calculated_area properties) (valuation_date EXCLUDED)
          (last_updated EXCLUDED) (district properties) (geom EXCLUDED).

(** DO UPDATE SET of [sync_wellington_to_neon] *)
Definition wellington_set (properties EXCLUDED : row) : row :=
  Columns (property_no properties) (physical_address EXCLUDED) (street properties)
          (locality properties) (postcode properties) (land_value properties)
          (capital_value EXCLUDED) (improvements_value properties)
          (land_use_description properties)
          (property_type_description properties) (survey_area properties)
          (calculated_area properties) (valuation_date EXCLUDED)
          (last_updated EXCLUDED) (district EXCLUDED) (geom EXCLUDED).

(** The statement while it runs: the table as it stands, the keys this
    command has inserted or updated, and the rows it has affected. *)
Record exec : Type := Exec {
  tbl : table;
  touched : gset Z;
  rowcount : nat
}.

(** One row of [INSERT INTO properties ... SELECT ... FROM temp_properties
    ON CONFLICT (object_id) DO UPDATE SET ... WHERE ...].  A row whose key
    this command has already inserted or updated cannot be affected a second
    time; a conflicting row that fails the WHERE clause is left as it is. *)
Definition upsert_row (set_cols : row -> row -> row) (st : exec)
    (r : staged numeric) : pgerror + exec :=
  match ST_GeomFromText (geom (cols r)) with
  | inl e => inl e
  | inr g =>
      match object_id r with
      | None => inl NotNullViolation
      | Some k =>
          let EXCLUDED := proposed (cols r) g in
          match tbl st !! k with
          | None =>
              inr (Exec (<[k := EXCLUDED]> (tbl st)) ({[k]} ∪ touched st)
                        (S (rowcount st)))
          | Some properties =>
              if bool_decide (k ∈ touched st) then inl CardinalityViolation
              else if where_clause properties EXCLUDED then
                inr (Exec (<[k := set_cols properties EXCLUDED]> (tbl st))
                          ({[k]} ∪ touched st) (S (rowcount st)))
              else inr st
          end
      end
  end.

(** The rows of [temp_properties] in turn.  On an error the statement stops
    where it is; what it wrote so far stays in the open transaction until
    the rollback. *)
Fixpoint upsert_rows (set_cols : row -> row -> row) (st : exec)
    (rows : list (staged numeric)) : exec * option pgerror :=
  match rows with
  | [] => (st, None)
  | r :: rest =>
      match upsert_row set_cols st r with
      | inl e => (st, Some e)
      | inr st' => upsert_rows set_cols st' rest
      end
  end.

(** [cur.execute(upsert_sql)]: the table it leaves in the transaction, and
    the error or [cur.rowcount]. *)
Definition execute_upsert (set_cols : row -> row -> row) (t : table)
    (rows : list (staged numeric)) : table * (pgerror + nat) :=
  match upsert_rows set_cols (Exec t ∅ 0) rows with
  | (st, None) => (tbl st, inr (rowcount st))
  | (st, Some e) => (tbl st, inl e)
  end.

(** A merge that went through: the new table and the rows affected. *)
Definition merged (set_cols : row -> row -> row) (t : table)
    (rows : list (staged numeric)) (t' : table) (n : nat) : Prop :=
  execute_upsert set_cols t rows = (t', inr n).

(** Whether the merge inserts a staged row or updates the row it conflicts
    with, judged against the table before the merge. *)
Definition affected (t : table) (r : staged numeric) : bool :=
  match object_id r with
  | Some k =>
      match t !! k with
      | None => true
      | Some properties => where_clause properties (cols r)
      end
  | None => false
  end.

(** A SET list that writes the columns the WHERE clause reads, and
    [last_updated]. *)
Definition writes_tracked (set_cols : row -> row -> row) : Prop :=
  forall old new,
    capital_value (set_cols old new) = capital_value new
    /\ physical_address (set_cols old new) = physical_address new
    /\ last_updated (set_cols old new) = last_updated new.

(** The columns no SET list names. *)
Definition untouched_by_all (old new : row) : Prop :=
  land_value new = land_value old
  /\ improvements_value new = improvements_value old
  /\ land_use_description new = land_use_description old
  /\ property_type_description new = property_type_description old
  /\ survey_area new = survey_area old
  /\ calculated_area new = calculated_area old.

(** The columns the SET list of [sync_auckland_to_neon] does not name. *)
Definition untouched_by_auckland (old new : row) : Prop :=
  untouched_by_all old new /\ district new = district old.

(** The columns the SET list of [sync_arcgis_to_neon] does not name. *)
Definition untouched_by_qldc (old new : row) : Prop :=
  untouched_by_all old new /\ district new = district old
  /\ street new = street old /\ locality new = locality old
  /\ postcode new = postcode old.

(** The columns the SET list of [sync_wellington_to_neon] does not name. *)
Definition untouched_by_wellington (old new : row) : Prop :=
  untouched_by_all old new /\ property_no new = property_no old
  /\ street new = street old /\ locality new = locality old
  /\ postcode new = postcode old.

(** *** The statement of [sync_wellington_to_neon]

    Its [temp_properties] declares [postcode VARCHAR(10)], the [properties]
    table of [reset_database_schema] declares [postcode VARCHAR(4)]: the
    SELECT list assigns the wider column to the narrower one.  The other
    columns have the same types in both tables. *)

(** Assignment to a [VARCHAR(n)] column: text longer than [n] is an error,
    unless only spaces are cut off. *)
Definition varchar (n : nat) (s : str) : option str :=
  if forallb (N.eqb 32) (skipn n s) then Some (firstn n s) else None.

(** One row of the SELECT list, as [properties] receives it. *)
Definition wellington_select (r : staged numeric) : pgerror + staged numeric :=
  match postcode (cols r) with
  | None => inr r
  | Some p =>
      match varchar 4 p with
      | Some p4 =>
          let c := cols r in
          inr (Staged (object_id r)
                 (Columns (property_no c) (physical_address c) (street c)
                          (locality c) (Some p4) (land_value c) (capital_value c)
                          (improvements_value c) (land_use_description c)
                          (property_type_description c) (survey_area c)
                          (calculated_area c) (valuation_date c) (last_updated c)
                          (district c) (geom c)))
      | None => inl DataError
      end
  end.

Fixpoint wellington_upsert_rows (st : exec) (rows : list (staged numeric))
    : exec * option pgerror :=
  match rows with
  | [] => (st, None)
  | r :: rest =>
      match wellington_select r with
      | inl e => (st, Some e)
      | inr selected =>
          match upsert_row wellington_set st selected with
          | inl e => (st, Some e)
          | inr st' => wellington_upsert_rows st' rest
          end
      end
  end.

Definition wellington_execute_upsert (t : table) (rows : list (staged numeric))
    : table * (pgerror + nat) :=
  match wellington_upsert_rows (Exec t ∅ 0) rows with
  | (st, None) => (tbl st, inr (rowcount st))
  | (st, Some e) => (tbl st, inl e)
  end.

(** A Wellington merge that went through. *)
Definition wellington_merged (t : table) (rows : list (staged numeric))
    (t' : table) (n : nat) : Prop :=
  wellington_execute_upsert t rows = (t', inr n).

(** *** The connection *)

(** The committed table and the table as the open transaction sees it. *)
Record connection : Type := Connection {
  committed : table;
  working : table
}.

Definition commit (c : connection) : connection :=
  Connection (working c) (working c).

Definition rollback (c : connection) : connection :=
  Connection (committed c) (committed c).

Definition write (c : connection) (t : table) : connection :=
  Connection (committed c) t.

End Store.
End Sql.

(** ** The synchronisation runs *)

Module Sync.
Import Sql.

(** What [requests.get(...)] followed by [raise_for_status()] and [.json()]
    yields for one page: an exception, or [data.get('features', [])]
    together with the truth of [data.get('exceededTransferLimit', False)]. *)
Inductive response : Type :=
  | RequestFailed
  | Page (features : list feature) (exceededTransferLimit : bool).

(** The count query: an exception, or [.json().get('count', 0)]. *)
Inductive count_response : Type :=
  | CountFailed
  | Count (total_records : pyval).

Inductive outcome : Type := Done | Failed.

Definition records_per_page : nat := 1000.

(** An empty page, or a short page without the exceeded-transfer-limit
    signal. *)
Definition exhausted (resp : response) : bool :=
  match resp with
  | RequestFailed => false
  | Page [] _ => true
  | Page features exceeded =>
      negb exceeded && (length features <? records_per_page)%nat
  end.

(** [total_records == 0] *)
Definition equals_zero (v : pyval) : bool :=
  match v with
  | PInt z => (z =? 0)%Z
  | PBool b => negb b
  | PFloat f => float_is_zero f
  | _ => false
  end.

(** [progress = (total_processed / total_records) * 100] *)
Definition progress (total_processed : nat) (total_records : pyval) : res unit :=
  match total_records with
  | PInt _ | PBool _ | PFloat _ =>
      if equals_zero total_records then Raise ZeroDivisionError else Ok tt
  | _ => Raise TypeError
  end.

Section Run.

Context {numeric geometry : Type} `{EqDecision numeric}.

Variable geom_from_text : str -> option geometry.
Variable float_repr : pyfloat -> str.
Variable strptime_dmy : str -> res date.

(** [execute_values] into [temp_properties]: psycopg2 adapts one tuple and
    PostgreSQL converts it to the column types; [None] when a value does
    not fit its column. *)
Variable adapt : values -> option (staged numeric).

(** The feature service, by [resultOffset]. *)
Variable fetch : nat -> response.

(** [datetime.now(timezone.utc)] at the i-th feature of the page fetched at
    an offset. *)
Variable clock : nat -> nat -> timestamp.

Abbreviation row := (columns numeric (option geometry)).
Abbreviation table := (gmap Z row).
Abbreviation conn := (@connection numeric geometry).

(** Where a run stands when it ends: the connection before the handlers
    run, and the two counters of the summary. *)
Record report : Type := Report {
  status : outcome;
  connection_of : conn;
  total_processed : nat;
  total_upserted : nat
}.

(** One page inside [with conn.cursor() as cur:]. *)
Inductive page_step : Type :=
  | Raised (c : conn)
  | Committed (c : conn) (rows_affected : nat).

(** [temp_properties] after [if all_values: execute_values(...)]. *)
Fixpoint stage (vs : list values) : option (list (staged numeric)) :=
  match vs with
  | [] => Some []
  | v :: rest =>
      match adapt v, stage rest with
      | Some r, Some rs => Some (r :: rs)
      | _, _ => None
      end
  end.

(** The upsert and the commit. *)
Definition upsert_and_commit (set_cols : row -> row -> row) (c : conn)
    (rows : list (staged numeric)) : page_step :=
  match execute_upsert geom_from_text set_cols (working c) rows with
  | (t, inl _) => Raised (write c t)
  | (t, inr rows_affected) => Committed (commit (write c t)) rows_affected
  end.

Section Paging.

(** What differs between [sync_auckland_to_neon] and
    [sync_arcgis_to_neon]: the loop body over the features, the SET list,
    and the test for the last page. *)
Variable normalize : timestamp -> feature -> res (option values).
Variable set_cols : row -> row -> row.
Variable last_page : bool -> nat -> bool.

(** The count fetched up front. *)
Variable total_records : pyval.

Definition merge_page (c : conn) (offset : nat) (features : list feature)
    (total_processed : nat) : page_step :=
  match progress total_processed total_records with
  | Raise _ => Raised c
  | Ok _ =>
      match all_values normalize (clock offset) 0 features with
      | Raise _ => Raised c
      | Ok vs =>
          match stage vs with
          | None => Raised c
          | Some rows => upsert_and_commit set_cols c rows
          end
      end
  end.

(** [while True:], with fuel; [None] when the fuel runs out. *)
Fixpoint paging (fuel : nat) (c : conn) (offset total_processed total_upserted : nat)
    : option report :=
  match fuel with
  | O => None
  | S fuel' =>
      match fetch offset with
      | RequestFailed => Some (Report Failed c total_processed total_upserted)
      | Page [] _ => Some (Report Done c total_processed total_upserted)
      | Page features exceeded =>
          let num_retrieved := length features in
          let total_processed := (total_processed + num_retrieved)%nat in
          match merge_page c offset features total_processed with
          | Raised c' => Some (Report Failed c' total_processed total_upserted)
          | Committed c' rows_affected =>
              let total_upserted := (total_upserted + rows_affected)%nat in
              if last_page exceeded num_retrieved
              then Some (Report Done c' total_processed total_upserted)
              else paging fuel' c' (offset + records_per_page)%nat
                          total_processed total_upserted
          end
      end
  end.

(** The table after [n] pages, from [offset] on, were each merged as a
    whole. *)
Inductive whole_pages : nat -> table -> nat -> table -> Prop :=
  | whole_pages_nil offset t : whole_pages offset t 0 t
  | whole_pages_cons offset t features exceeded vs rows t1 rows_affected n t2 :
      fetch offset = Page features exceeded ->
      features <> [] ->
      all_values normalize (clock offset) 0 features = Ok vs ->
      stage vs = Some rows ->
      merged geom_from_text set_cols t rows t1 rows_affected ->
      whole_pages (offset + records_per_page)%nat t1 n t2 ->
      whole_pages offset t (S n) t2.

(** The page at [offset] does not get committed on top of [t]: the request
    fails, or the page raises before its commit. *)
Definition page_fails (t : table) (offset : nat) : Prop :=
  match fetch offset with
  | RequestFailed => True
  | Page features _ =>
      exists c' total_processed,
        merge_page (Connection t t) offset features total_processed = Raised c'
  end.

End Paging.

(** The [except] clauses roll back, [finally] closes. *)
Definition handlers (r : report) : report :=
  match status r with
  | Failed => Report Failed (rollback (connection_of r))
                     (total_processed r) (total_upserted r)
  | Done => r
  end.

(** The count query of the two scripts that guard it: a failed request and
    a zero count both return before the loop. *)
Definition counted (count : count_response) (c : conn)
    (run : pyval -> option report) : option report :=
  match count with
  | CountFailed => Some (Report Failed c 0 0)
  | Count total_records =>
      if equals_zero total_records then Some (Report Done c 0 0)
      else run total_records
  end.

(** [if not data.get('exceededTransferLimit', False) and
    num_retrieved < records_per_page: break] *)
Definition auckland_last_page (exceeded : bool) (num_retrieved : nat) : bool :=
  negb exceeded && (num_retrieved <? records_per_page)%nat.

(** [if num_retrieved < records_per_page: break] *)
Definition qldc_last_page (exceeded : bool) (num_retrieved : nat) : bool :=
  (num_retrieved <? records_per_page)%nat.

Definition sync_auckland_to_neon (fuel : nat) (count : count_response) (c : conn)
    : option report :=
  handlers <$>
    counted count c (fun total_records =>
      paging (normalize_auckland float_repr) auckland_set auckland_last_page
             total_records fuel c 0 0 0).

Definition sync_arcgis_to_neon (fuel : nat) (count : count_response) (c : conn)
    : option report :=
  handlers <$>
    counted count c (fun total_records =>
      paging (normalize_qldc float_repr) qldc_set qldc_last_page
             total_records fuel c 0 0 0).

(** The upsert and the commit of [sync_wellington_to_neon]. *)
Definition wellington_upsert_and_commit (c : conn) (rows : list (staged numeric))
    : page_step :=
  match wellington_execute_upsert geom_from_text (working c) rows with
  | (t, inl _) => Raised (write c t)
  | (t, inr rows_affected) => Committed (commit (write c t)) rows_affected
  end.

(** [sync_wellington_to_neon]: no feature is skipped, the merge sits under
    [if values:], and only an empty page ends the loop. *)
Definition wellington_page (c : conn) (offset : nat) (features : list feature)
    : page_step :=
  match res_map (fun '(i, f) => normalize_wellington float_repr strptime_dmy
                                  (clock offset i) f)
                (imap (fun i f => (i, f)) features) with
  | Raise _ => Raised c
  | Ok [] => Committed c 0
  | Ok vs =>
      match stage vs with
      | None => Raised c
      | Some rows => wellington_upsert_and_commit c rows
      end
  end.

Fixpoint wellington_paging (fuel : nat) (c : conn) (offset total_upserted : nat)
    : option report :=
  match fuel with
  | O => None
  | S fuel' =>
      match fetch offset with
      | RequestFailed => Some (Report Failed c 0 total_upserted)
      | Page [] _ => Some (Report Done c 0 total_upserted)
      | Page features _ =>
          match wellington_page c offset features with
          | Raised c' => Some (Report Failed c' 0 total_upserted)
          | Committed c' rows_affected =>
              wellington_paging fuel' c' (offset + 1000)%nat
                                (total_upserted + rows_affected)%nat
          end
      end
  end.

Definition sync_wellington_to_neon (fuel : nat) (count : count_response) (c : conn)
    : option report :=
  handlers <$>
    match count with
    | CountFailed => Some (Report Failed c 0 0)
    | Count _ => wellington_paging fuel c 0 0
    end.

End Run.
End Sync.

(** ** Sample data *)

Module Sample.
Import Sql Sync.

(** A store that keeps the geometry as its text and accepts every literal,
    with integers for NUMERIC. *)
Definition geom_from_text (s : str) : option str := Some s.

Definition float_repr (f : pyfloat) : str :=
  match f with
  | FDec neg m e =>
      (if neg then u "-" else []) ++ str_of_int (Z.of_N m) ++ u "e" ++ str_of_int e
  | FInf neg => (if neg then u "-" else []) ++ u "inf"
  | FNan => u "nan"
  end.

Definition strptime_dmy (s : str) : res date := Raise ValueError.

Definition int_column (v : pyval) : option Z :=
  match v with
  | PInt z => Some z
  | PFloat (FDec neg m 0) => Some (if neg then - Z.of_N m else Z.of_N m)%Z
  | _ => None
  end.

Definition text_column (v : pyval) : option str :=
  match v with PStr s => Some s | _ => None end.

Definition adapt (v : values) : option (staged Z) :=
  Some (Staged (int_column (v_object_id v))
    (Columns (int_column (v_property_no v)) (text_column (v_physical_address v))
             (text_column (v_street v)) (text_column (v_locality v))
             (text_column (v_postcode v)) (int_column (v_land_value v))
             (int_column (v_capital_value v)) (int_column (v_improvements_value v))
             (text_column (v_land_use_description v))
             (text_column (v_property_type_description v))
             (int_column (v_survey_area v)) (int_column (v_calculated_area v))
             (v_valuation_date v) (v_last_updated v) (v_district v)
             (v_geometry_wkt v))).

Definition clock (offset i : nat) : timestamp := Z.of_nat (offset + i).

Definition ward_street : str :=
  u "7 Ward Street" ++ [10] ++ u "Pukekohe" ++ [10] ++ u "Auckland 2120".

Definition square : list (list number) :=
  [[NInt 0; NInt 0]; [NInt 0; NInt 10]; [NInt 10; NInt 10]; [NInt 0; NInt 0]].

(** Two features of one page: parcel 101, and one without OBJECTID. *)
Definition parcel_101 : feature :=
  Feature (Present (list_to_map
             [(u "OBJECTID", PInt 101); (u "FORMATTEDADDRESS", PStr ward_street);
              (u "AREALABEL", PStr (u "1234 m2")); (u "LCV", PInt 850000);
              (u "LATESTVALUATIONDATE", PInt 1625097600000)]))
          (Present (Geometry (Some [square]))).

Definition nameless : feature :=
  Feature (Present (list_to_map [(u "LCV", PInt 10)])) Absent.

(** A feature whose valuation date came as text, and one whose land area
    came as a label. *)
Definition dated_in_text : feature :=
  Feature (Present (list_to_map
             [(u "OBJECTID", PInt 102);
              (u "LATESTVALUATIONDATE", PStr (u "01/07/2021"))]))
          Absent.

Definition labelled_area : feature :=
  Feature (Present (list_to_map
             [(u "OBJECTID", PInt 103); (u "LandArea", PStr (u "1234 m2"))]))
          Absent.

(** A service with one page flagged as cut short by the transfer limit,
    then nothing; and one whose second request fails. *)
Definition two_requests (offset : nat) : response :=
  match offset with
  | O => Page [parcel_101; nameless] true
  | _ => Page [] false
  end.

Definition failing_second (offset : nat) : response :=
  match offset with
  | O => Page [parcel_101; nameless] true
  | _ => RequestFailed
  end.

Definition aborted_run : option (@report Z str) :=
  sync_auckland_to_neon geom_from_text float_repr adapt failing_second clock
                        5 (Count (PInt 2)) (Connection ∅ ∅).

(** Rows for the merge. *)
Definition columns_of (property_no : option Z) (address : str)
    (capital_value : Z) (stamp : timestamp) {G} (g : G) : columns Z G :=
  Columns property_no (Some address) None None None None (Some capital_value)
          None (Some (u "Residential")) None None None None stamp None g.

Definition stored : gmap Z (columns Z (option str)) :=
  {[ 7%Z := columns_of (Some 1%Z) (u "1 High Street") 100 1 None ]}.

Definition revalued : staged Z :=
  Staged (Some 7%Z) (columns_of (Some 2%Z) (u "1 High Street") 200 2 None).

Definition newcomer : staged Z :=
  Staged (Some 8%Z) (columns_of None (u "2 High Street") 300 2 None).

Definition batch : list (staged Z) := [revalued; newcomer].

Definition merged_once : gmap Z (columns Z (option str)) :=
  fst (execute_upsert geom_from_text auckland_set stored batch).

(** The same parcel twice in one batch, first as stored, then revalued. *)
Definition unchanged : staged Z :=
  Staged (Some 7%Z) (columns_of (Some 1%Z) (u "1 High Street") 100 2 None).

Definition repeated : list (staged Z) := [unchanged; revalued].

End Sample.

(** ** Readings of a feature and of a response *)

(** [feature.get('attributes', {}).get('OBJECTID')]; [None] as well when
    the feature has no attributes to ask. *)
Definition feature_object_id (f : feature) : pyval :=
  match attributes f with
  | Present d => attr_get d "OBJECTID"
  | _ => PNone
  end.

(** A geometry on which the encoder stumbles: a ['rings'] list without a
    ring ([geometry['rings'][0]]), or a first ring with a point that does
    not unpack into [x, y]. *)
Definition malformed (g : field geometry) : bool :=
  match g with
  | Present (Geometry (Some [])) => true
  | Present (Geometry (Some (ring :: _))) =>
      negb (forallb (fun pt => Nat.eqb (length pt) 2) ring)
  | _ => false
  end.

(** [data.get('features', [])] of a response that arrived. *)
Definition features_of (resp : Sync.response) : option (list feature) :=
  match resp with
  | Sync.RequestFailed => None
  | Sync.Page features _ => Some features
  end.

(** [v is None] *)
Definition is_none (v : pyval) : bool :=
  match v with PNone => true | _ => false end.

(** [isinstance(v, (int, float))]: what [total_processed / v] accepts. *)
Definition is_number (v : pyval) : bool :=
  match v with
  | PInt _ | PBool _ | PFloat _ => true
  | _ => false
  end.

(** ** The pages of [sync_wellington_to_neon] *)

Section WellingtonPages.

Context {numeric geometry : Type} `{EqDecision numeric}.
Variable geom_from_text : str -> option geometry.
Variable float_repr : pyfloat -> str.
Variable strptime_dmy : str -> res date.
Variable adapt : values -> option (Sql.staged numeric).
Variable fetch : nat -> Sync.response.
Variable clock : nat -> nat -> timestamp.

(** [values] after [for f in features:], the clock read once per
    feature. *)
Definition wellington_values (offset : nat) (features : list feature)
    : res (list values) :=
  res_map (fun '(i, f) => normalize_wellington float_repr strptime_dmy
                            (clock offset i) f)
          (imap (fun i f => (i, f)) features).

(** The table after [n] pages of the Wellington service, from [offset]
    on, were each merged as a whole. *)
Inductive wellington_whole_pages
    : nat -> gmap Z (Sql.columns numeric (option geometry)) -> nat ->
      gmap Z (Sql.columns numeric (option geometry)) -> Prop :=
  | wellington_pages_nil offset t : wellington_whole_pages offset t 0 t
  | wellington_pages_cons offset t features flag vs rows t1 rows_affected n t2 :
      fetch offset = Sync.Page features flag ->
      features <> [] ->
      wellington_values offset features = Ok vs ->
      Sync.stage adapt vs = Some rows ->
      Sql.wellington_merged geom_from_text t rows t1 rows_affected ->
      wellington_whole_pages (offset + 1000)%nat t1 n t2 ->
      wellington_whole_pages offset t (S n) t2.

End WellingtonPages.

(** ** Data the table already holds *)

Section Held.

Context {numeric geometry : Type} `{EqDecision numeric}.
Variable geom_from_text : str -> option geometry.
Variable adapt : values -> option (Sql.staged numeric).
Variable fetch : nat -> Sync.response.
Variable clock : nat -> nat -> timestamp.
Variable normalize : timestamp -> feature -> res (option values).

(** A staged record the table holds: its object id is there with the same
    capital value and physical address, and its geometry literal parses. *)
Definition held (t : gmap Z (Sql.columns numeric (option geometry)))
    (r : Sql.staged numeric) : bool :=
  match Sql.object_id r, Sql.ST_GeomFromText geom_from_text (Sql.geom (Sql.cols r)) with
  | Some k, inr _ =>
      match t !! k with
      | Some properties => negb (Sql.where_clause properties (Sql.cols r))
      | None => false
      end
  | _, _ => false
  end.

(** The service serves nothing new: the records staged from any of its
    pages are held by the table. *)
Definition nothing_new (t : gmap Z (Sql.columns numeric (option geometry))) : Prop :=
  forall offset,
    match fetch offset with
    | Sync.Page features _ =>
        match all_values normalize (clock offset) 0 features with
        | Ok vs =>
            match Sync.stage adapt vs with
            | Some rows => forallb (held t) rows = true
            | None => True
            end
        | Raise _ => True
        end
    | Sync.RequestFailed => True
    end.

End Held.

(** ** More sample data *)

Module Cases.
Import Sql Sync.

(** A Wellington parcel with a land area of zero and a date that is not
    one. *)
Definition zero_area_attributes : gmap str pyval :=
  list_to_map [(u "OBJECTID", PInt 104); (u "LandArea", PInt 0);
               (u "ValuationDate", PStr (u "soon"))].

Definition zero_area : feature := Feature (Present zero_area_attributes) Absent.

(** A Wellington parcel whose land area came as a number. *)
Definition measured_attributes : gmap str pyval :=
  list_to_map [(u "OBJECTID", PInt 105); (u "LandArea", PInt 450)].

Definition measured : feature := Feature (Present measured_attributes) Absent.

(** A Wellington parcel with a postcode of five characters. *)
Definition long_postcode : feature :=
  Feature (Present (list_to_map
             [(u "OBJECTID", PInt 106); (u "PostCode", PStr (u "60110"))]))
          Absent.

(** The first page of [Sample.two_requests] without the flag, the empty
    page with it. *)
Definition two_requests_unflagged (offset : nat) : response :=
  match offset with
  | O => Page [Sample.parcel_101; Sample.nameless] false
  | _ => Page [] true
  end.

(** A service that caps its pages: two features, flagged as cut short, at
    every offset. *)
Definition capped (offset : nat) : response :=
  Page [Sample.parcel_101; Sample.nameless] true.

Definition aborted_qldc_run : option (@report Z str) :=
  sync_arcgis_to_neon Sample.geom_from_text Sample.float_repr Sample.adapt
                      Sample.failing_second Sample.clock
                      5 (Count (PInt 2)) (Connection ∅ ∅).

Definition auckland_run : option (@report Z str) :=
  sync_auckland_to_neon Sample.geom_from_text Sample.float_repr Sample.adapt
                        Sample.two_requests Sample.clock
                        5 (Count (PInt 2)) (Connection ∅ ∅).

Definition wellington_run : option (@report Z str) :=
  sync_wellington_to_neon Sample.geom_from_text Sample.float_repr
                          Sample.strptime_dmy Sample.adapt
                          (fun offset => match offset with
                                         | O => Page [zero_area] false
                                         | _ => Page [] false
                                         end)
                          Sample.clock 5 (Count (PInt 1)) (Connection ∅ ∅).

(** The table [auckland_run] leaves behind. *)
Definition loaded : gmap Z (columns Z (option str)) :=
  match auckland_run with
  | Some r => committed (connection_of r)
  | None => ∅
  end.

End Cases.

(** * Properties *)

(** ** Strings *)

Section StringFacts.

Implicit Types (s t : str) (c : N) (p : N -> bool).

Lemma take_drop_while p s : take_while p s ++ drop_while p s = s.
Proof. induction s as [|c s IH]; simpl; [done|]. destruct (p c); simpl; congruence. Qed.

Lemma take_while_all p s : forallb p (take_while p s) = true.
Proof. induction s as [|c s IH]; simpl; [done|]. destruct (p c) eqn:E; simpl; [by rewrite E|done]. Qed.

Lemma drop_while_head p s c t : drop_while p s = c :: t -> p c = false.
Proof.
  induction s as [|a s IH]; simpl; [done|].
  destruct (p a) eqn:E; [done|]. intros [= <- _]. exact E.
Qed.

Lemma take_while_app p s t :
  forallb p s = true -> (forall c t', t = c :: t' -> p c = false) ->
  take_while p (s ++ t) = s.
Proof.
  intros Hs Ht. induction s as [|a s IH]; simpl in *.
  - destruct t as [|c t]; simpl; [done|]. by rewrite (Ht c t).
  - apply andb_true_iff in Hs as [-> Hs]. by rewrite IH.
Qed.

Lemma drop_while_app p s t :
  forallb p s = true -> (forall c t', t = c :: t' -> p c = false) ->
  drop_while p (s ++ t) = t.
Proof.
  intros Hs Ht. induction s as [|a s IH]; simpl in *.
  - destruct t as [|c t]; simpl; [done|]. by rewrite (Ht c t).
  - apply andb_true_iff in Hs as [-> Hs]. by rewrite IH.
Qed.

(** A trimmed text does not end in white space. *)
Lemma strip_last s c : last (strip s) = Some c -> isspace c = false.
Proof.
  unfold strip, rstrip. intros H.
  destruct (drop_while isspace (rev (lstrip s))) as [|a r] eqn:E; simpl in H; [done|].
  rewrite last_snoc in H. injection H as <-. by eapply drop_while_head.
Qed.

(** *** Lines *)

(** Python's [splitlines] and the plain split differ by empty lines only:
    the one between a carriage return and its line feed, and the one after
    a final line break. *)
Lemma splitlines_from_nonblank (keep : str -> bool) cur after_cr s :
  keep [] = false -> (after_cr = true -> cur = []) ->
  List.filter keep (splitlines_from cur after_cr s)
  = List.filter keep (split_on_linebreaks cur s).
Proof.
  intros Hk. revert cur after_cr.
  induction s as [|c s IH]; intros cur after_cr Hcr; simpl.
  - destruct cur; simpl; [by rewrite Hk|done].
  - destruct (after_cr && (c =? 10)) eqn:E.
    + apply andb_true_iff in E as [-> E]. apply N.eqb_eq in E as ->.
      rewrite (Hcr eq_refl). simpl. rewrite Hk. by apply IH.
    + destruct (islinebreak c); simpl.
      * rewrite (IH [] (c =? 13)); done.
      * apply IH. done.
Qed.

Lemma filter_map_strip (l : list str) :
  map strip (List.filter (fun part => truthy (PStr (strip part))) l)
  = List.filter (fun l => negb (Nat.eqb (length l) 0)) (map strip l).
Proof.
  induction l as [|a l IH]; [done|].
  cbn [List.filter map]. destruct (strip a) eqn:E; cbn [truthy length Nat.eqb negb map].
  - exact IH.
  - rewrite E. f_equal. exact IH.
Qed.

Lemma address_parts_nonblank_lines s : address_parts s = nonblank_lines s.
Proof.
  unfold address_parts, nonblank_lines, splitlines.
  rewrite (splitlines_from_nonblank (fun part => truthy (PStr (strip part)))); [|done..].
  apply filter_map_strip.
Qed.

Lemma nonblank_lines_stripped s l :
  In l (nonblank_lines s) -> l <> [] /\ exists x, l = strip x.
Proof.
  unfold nonblank_lines. intros H. apply filter_In in H as [H1 H2].
  apply in_map_iff in H1 as (x & <- & _). split; [|eauto].
  destruct (strip x); done.
Qed.

(** *** The postcode pattern *)

Lemma isdecimal_not_linefeed c : isdecimal c = true -> c <> 10.
Proof. intros H ->. done. Qed.

Lemma match_postcode_iff s :
  last s <> Some 10 ->
  match_postcode s = (Nat.eqb (length s) 4 && forallb isdecimal s).
Proof.
  intros Hl. destruct s as [|a [|b [|c [|d rest]]]]; try done. simpl.
  destruct rest as [|e [|f rest]]; simpl.
  - by rewrite !andb_true_r, !andb_assoc.
  - destruct (e =? 10) eqn:E.
    + apply N.eqb_eq in E as ->. done.
    + by rewrite !andb_false_r.
  - by rewrite !andb_false_r.
Qed.

Lemma search_postcode_trailing s pos :
  last s <> Some 10 ->
  search_postcode pos s
  = match trailing_postcode s with
    | Some _ => Some (pos + (length s - 4))%nat
    | None => None
    end.
Proof.
  revert pos. induction s as [|a s IH]; intros pos Hl; [done|].
  cbn [search_postcode]. rewrite match_postcode_iff by done.
  assert (Hs : last s <> Some 10).
  { destruct s; [done|]. by rewrite last_cons_cons in Hl. }
  unfold trailing_postcode in *.
  destruct (Nat.eqb (length (a :: s)) 4) eqn:E4.
  - apply Nat.eqb_eq in E4. rewrite E4. simpl Nat.sub. cbn [skipn Nat.leb andb].
    destruct (forallb isdecimal (a :: s)) eqn:Ed; cbn [andb].
    + f_equal. lia.
    + rewrite IH by done. simpl in E4.
      replace (4 <=? length s)%nat with false; [done|].
      symmetry. apply Nat.leb_gt. lia.
  - apply Nat.eqb_neq in E4. cbn [andb]. rewrite IH by done. simpl in E4. simpl length.
    destruct (4 <=? length s)%nat eqn:E; cbn [andb].
    + apply Nat.leb_le in E.
      replace (4 <=? S (length s))%nat with true by (symmetry; apply Nat.leb_le; lia).
      replace (S (length s) - 4)%nat with (S (length s - 4)) by lia.
      cbn [skipn andb]. destruct (forallb isdecimal (skipn (length s - 4) s)); [f_equal; lia|done].
    + apply Nat.leb_gt in E.
      replace (4 <=? S (length s))%nat with false; [done|].
      symmetry. apply Nat.leb_gt. lia.
Qed.

Lemma trailing_postcode_split s before token :
  trailing_postcode s = Some (before, token) ->
  before = firstn (length s - 4) s /\ token = skipn (length s - 4) s
  /\ length token = 4%nat /\ forallb isdecimal token = true.
Proof.
  unfold trailing_postcode.
  destruct (4 <=? length s)%nat eqn:E; [|done].
  destruct (forallb isdecimal _) eqn:F; [|done].
  intros [= <- <-]. apply Nat.leb_le in E.
  rewrite length_skipn. repeat split; [lia|done].
Qed.

Lemma last_In (l : list str) d : l <> [] -> In (List.last l d) l.
Proof.
  induction l as [|a l IH]; [done|]. intros _.
  destruct l as [|b l]; [by left|]. right. by apply IH.
Qed.

Lemma stripped_no_linefeed l x : l = strip x -> last l <> Some 10.
Proof. intros -> H. by apply strip_last in H. Qed.

(** The decomposition of the script is the one the specification words. *)
Lemma parse_auckland_address_decompose s :
  parse_auckland_address (PStr s) = decompose_address s.
Proof.
  destruct s as [|c0 s0]; [done|].
  unfold parse_auckland_address, decompose_address.
  cbn [truthy isinstance_str negb orb]. rewrite address_parts_nonblank_lines.
  pose proof (nonblank_lines_stripped (c0 :: s0)) as Hin.
  destruct (nonblank_lines (c0 :: s0)) as [|p [|q rest]]; [done..|].
  cbn [head length Nat.ltb Nat.leb].
  change (List.last (p :: q :: rest) []) with (List.last (q :: rest) []).
  set (final := List.last (q :: rest) []).
  assert (Hf : In final (p :: q :: rest)) by (right; by apply last_In).
  apply Hin in Hf as [_ [x Hx]].
  rewrite search_postcode_trailing by (by eapply stripped_no_linefeed).
  destruct (trailing_postcode final) as [[before token]|] eqn:E; [|done].
  apply trailing_postcode_split in E as (-> & -> & Hlen & _).
  cbn [Nat.add]. f_equal. f_equal.
  set (token := skipn (length final - 4) final) in *.
  rewrite <- Hlen. apply firstn_all.
Qed.

End StringFacts.

(** ** Area labels *)

Section AreaFacts.

Implicit Types (s t : str) (c : N).

(** A property checked on every digit of every run holds of every decimal
    digit. *)
Lemma decimal_digits_ind (P : N -> bool) :
  forallb (fun z => forallb (fun i => P (z + i)) [0; 1; 2; 3; 4; 5; 6; 7; 8; 9])
          decimal_zeros = true ->
  forall c, isdecimal c = true -> P c = true.
Proof.
  intros HP c. unfold isdecimal, todecimal.
  destruct (List.find _ decimal_zeros) as [z|] eqn:E; [intros _|done].
  apply find_some in E as [Hin Hz].
  apply andb_true_iff in Hz as [H1 H2].
  apply N.leb_le in H1. apply N.ltb_lt in H2.
  rewrite forallb_forall in HP. specialize (HP z Hin).
  rewrite forallb_forall in HP. specialize (HP (c - z)).
  replace (z + (c - z)) with c in HP by lia. apply HP.
  assert (c - z = 0 \/ c - z = 1 \/ c - z = 2 \/ c - z = 3 \/ c - z = 4 \/
          c - z = 5 \/ c - z = 6 \/ c - z = 7 \/ c - z = 8 \/ c - z = 9) as Hd by lia.
  simpl. intuition.
Qed.

Lemma decimal_not_space c : isdecimal c = true -> isspace c = false.
Proof.
  intros H. apply negb_true_iff.
  revert c H. apply (decimal_digits_ind (fun c => negb (isspace c))). by vm_compute.
Qed.

Lemma decimal_ascii c : isdecimal c = true -> (c <? 127) = true -> c = asc c.
Proof.
  intros H L.
  assert (implb (c <? 127) (c =? asc c) = true) as Hc.
  { clear L. revert c H.
    apply (decimal_digits_ind (fun c => implb (c <? 127) (c =? asc c))).
    by vm_compute. }
  rewrite L in Hc. by apply N.eqb_eq in Hc.
Qed.

Lemma asc_digit c : isdecimal c = true -> isasciidigit (asc c) = true.
Proof.
  revert c. apply (decimal_digits_ind (fun c => isasciidigit (asc c))).
  by vm_compute.
Qed.

Lemma decimal_not_point c : isdecimal c = true -> (c =? 46) = false.
Proof.
  intros H. apply negb_true_iff. revert c H.
  apply (decimal_digits_ind (fun c => negb (c =? 46))). by vm_compute.
Qed.

Lemma to_ascii_decimal_digits ds rest :
  forallb isdecimal ds = true ->
  to_ascii_decimal (ds ++ rest) = map asc ds ++ to_ascii_decimal rest.
Proof.
  induction ds as [|c ds IH]; [done|]. cbn [forallb app to_ascii_decimal map].
  intros [Hc Hds]%andb_true_iff. rewrite IH by done.
  destruct (c <? 127) eqn:L.
  - by rewrite <- (decimal_ascii c).
  - rewrite decimal_not_space by done. unfold asc.
    unfold isdecimal in Hc. by destruct (todecimal c).
Qed.

Lemma to_ascii_decimal_all ds :
  forallb isdecimal ds = true -> to_ascii_decimal ds = map asc ds.
Proof.
  intros H. rewrite <- (app_nil_r ds) at 1.
  rewrite to_ascii_decimal_digits by done. apply app_nil_r.
Qed.

Lemma digits_value_asc ds acc :
  fold_left (fun a d => 10 * a + (d - 48)) (map asc ds) acc
  = fold_left (fun a c => 10 * a + default 0 (todecimal c)) ds acc.
Proof.
  revert acc. induction ds as [|c ds IH]; intros acc; [done|]. simpl.
  rewrite IH. f_equal. unfold asc. lia.
Qed.

Lemma ascii_digit_facts c :
  isasciidigit c = true ->
  isasciispace c = false /\ (c =? 45) = false /\ (c =? 43) = false
  /\ (c =? 46) = false /\ (c =? 95) = false.
Proof.
  unfold isasciidigit, isasciispace. intros [H1 H2]%andb_true_iff.
  apply N.leb_le in H1. apply N.leb_le in H2.
  repeat split; try (apply N.eqb_neq; lia).
  apply orb_false_iff. split; [|apply N.eqb_neq; lia].
  apply andb_false_iff. right. apply N.leb_gt. lia.
Qed.

Lemma rev_drop_while_rev (p : N -> bool) s :
  (forall c, last s = Some c -> p c = false) ->
  rev (drop_while p (rev s)) = s.
Proof.
  destruct s as [|c s _] using rev_ind; [done|]. intros H.
  rewrite rev_app_distr. simpl. rewrite H by apply last_snoc.
  simpl. by rewrite rev_involutive.
Qed.

Lemma forallb_asc ds : forallb isdecimal ds = true -> forallb isasciidigit (map asc ds) = true.
Proof.
  induction ds as [|c ds IH]; [done|]. simpl. intros [Hc Hds]%andb_true_iff.
  by rewrite asc_digit, IH.
Qed.

Lemma take_while_digits A t :
  forallb isasciidigit A = true -> take_while isasciidigit (A ++ 46 :: t) = A.
Proof. intros H. apply take_while_app; [done|]. by intros c t' [= <- _]. Qed.

Lemma drop_while_digits A t :
  forallb isasciidigit A = true -> drop_while isasciidigit (A ++ 46 :: t) = 46 :: t.
Proof. intros H. apply drop_while_app; [done|]. by intros c t' [= <- _]. Qed.

Lemma take_while_digits_nil A :
  forallb isasciidigit A = true -> take_while isasciidigit A = A.
Proof. intros H. rewrite <- (app_nil_r A) at 1. by apply take_while_app. Qed.

Lemma drop_while_digits_nil A :
  forallb isasciidigit A = true -> drop_while isasciidigit A = [].
Proof. intros H. rewrite <- (app_nil_r A) at 1. by apply drop_while_app. Qed.

(** [strtod] on ASCII digits, a point and ASCII digits. *)
Lemma strtod_point c A F :
  isasciidigit c = true -> forallb isasciidigit A = true ->
  forallb isasciidigit F = true ->
  strtod ((c :: A) ++ 46 :: F)
  = Some (FDec false (digits_value ((c :: A) ++ F)) (- Z.of_nat (length F)), []).
Proof.
  intros Hc HA HF. destruct (ascii_digit_facts c Hc) as (_ & E45 & E43 & _).
  assert (HcA : forallb isasciidigit (c :: A) = true) by (simpl; by rewrite Hc).
  unfold strtod, read_sign. cbn [app]. rewrite E45, E43.
  change (c :: A ++ 46 :: F) with ((c :: A) ++ 46 :: F).
  rewrite take_while_digits, drop_while_digits by done.
  cbn [N.eqb Pos.eqb]. rewrite take_while_digits_nil, drop_while_digits_nil by done.
  cbn [app read_exponent]. by rewrite Z.sub_0_l.
Qed.

Lemma strtod_integer c A :
  isasciidigit c = true -> forallb isasciidigit A = true ->
  strtod (c :: A) = Some (FDec false (digits_value (c :: A)) 0, []).
Proof.
  intros Hc HA. destruct (ascii_digit_facts c Hc) as (_ & E45 & E43 & _).
  assert (HcA : forallb isasciidigit (c :: A) = true) by (simpl; by rewrite Hc).
  unfold strtod, read_sign. rewrite E45, E43.
  rewrite take_while_digits_nil, drop_while_digits_nil by done.
  cbn [app read_exponent length]. by rewrite app_nil_r.
Qed.

Lemma existsb_underscore_digits A :
  forallb isasciidigit A = true -> existsb (N.eqb 95) A = false.
Proof.
  induction A as [|c A IH]; [done|]. cbn [forallb existsb].
  intros [Hc HA]%andb_true_iff.
  destruct (ascii_digit_facts c Hc) as (_ & _ & _ & _ & E).
  rewrite N.eqb_sym, E. by apply IH.
Qed.

Lemma last_In_str s c : last s = Some c -> In c s.
Proof.
  induction s as [|a s IH]; [done|]. destruct s as [|b s].
  - intros [= <-]. by left.
  - rewrite last_cons_cons. intros H. right. by apply IH.
Qed.

Lemma search_number_first s : search_number s = first_number s.
Proof.
  unfold first_number. induction s as [|c s IH]; [done|].
  cbn [search_number drop_while]. unfold match_number, numeric_prefix.
  cbn [take_while drop_while]. destruct (isdecimal c) eqn:E; cbn [negb]; rewrite ?E.
  - by destruct (drop_while isdecimal s) as [|d r]; [|destruct (d =? 46)];
      rewrite ?app_nil_r.
  - exact IH.
Qed.

(** [float] of a text that becomes, in ASCII, digits and maybe a point and
    digits. *)
Lemma float_of_str_ascii s a f :
  to_ascii_decimal s = a ->
  (forall x, In x a -> isasciispace x = false /\ (x =? 95) = false) ->
  strtod a = Some (f, []) ->
  float_of_str s = Ok f.
Proof.
  intros Ha Hall Hs. unfold float_of_str. rewrite Ha.
  assert (Hne : a <> []) by (intros ->; done).
  assert (Hb : rev (drop_while isasciispace (rev (drop_while isasciispace a))) = a).
  { destruct a as [|c t]; [done|]. cbn [drop_while].
    destruct (Hall c) as [-> _]; [by left|].
    apply rev_drop_while_rev. intros x Hx. by apply Hall, last_In_str. }
  rewrite Hb. destruct a as [|c t] eqn:Ea; [done|]. rewrite <- Ea in *.
  replace (existsb (N.eqb 95) a) with false.
  - unfold float_inner. by rewrite Hs.
  - symmetry. apply not_true_is_false. intros (x & Hx & Hx')%existsb_exists.
    apply Hall in Hx as [_ Hx]. by rewrite N.eqb_sym, Hx in Hx'.
Qed.

Lemma ascii_digits_plain A x :
  forallb isasciidigit A = true -> In x A ->
  isasciispace x = false /\ (x =? 95) = false.
Proof.
  intros HA Hx. rewrite forallb_forall in HA.
  by destruct (ascii_digit_facts x (HA x Hx)) as (? & _ & _ & _ & ?).
Qed.

Lemma float_of_digits_point ip fp c :
  forallb isdecimal (c :: ip) = true -> forallb isdecimal fp = true ->
  float_of_str ((c :: ip) ++ 46 :: fp)
  = Ok (FDec false (digit_values ((c :: ip) ++ fp)) (- Z.of_nat (length fp))).
Proof.
  intros Hip Hfp.
  pose proof (forallb_asc _ Hip) as HA. pose proof (forallb_asc _ Hfp) as HF.
  apply (float_of_str_ascii _ (map asc (c :: ip) ++ 46 :: map asc fp)).
  - rewrite to_ascii_decimal_digits by done.
    change (to_ascii_decimal (46 :: fp)) with (46 :: to_ascii_decimal fp).
    by rewrite (to_ascii_decimal_all fp).
  - intros x [Hx|[<-|Hx]]%in_app_iff;
      [exact (ascii_digits_plain _ _ HA Hx)|by split
      |exact (ascii_digits_plain _ _ HF Hx)].
  - cbn [map] in *. apply andb_true_iff in HA as [Hc HA].
    rewrite strtod_point by done. do 3 f_equal.
    + change (asc c :: map asc ip) with (map asc (c :: ip)).
      rewrite <- map_app. apply (digits_value_asc _ 0).
    + by rewrite length_map.
Qed.

Lemma float_of_digits ip c :
  forallb isdecimal (c :: ip) = true ->
  float_of_str (c :: ip) = Ok (FDec false (digit_values (c :: ip)) 0).
Proof.
  intros Hip. pose proof (forallb_asc _ Hip) as HA.
  apply (float_of_str_ascii _ (map asc (c :: ip))).
  - by apply to_ascii_decimal_all.
  - intros x Hx. exact (ascii_digits_plain _ _ HA Hx).
  - cbn [map] in *. apply andb_true_iff in HA as [Hc HA].
    rewrite strtod_integer by done. do 3 f_equal.
    apply (digits_value_asc (c :: ip) 0).
Qed.

Lemma decimal_value_integer ds :
  forallb isdecimal ds = true ->
  decimal_value ds = FDec false (digit_values ds) 0.
Proof.
  intros H. unfold decimal_value.
  pose proof (take_while_app isdecimal ds [] H) as E1.
  pose proof (drop_while_app isdecimal ds [] H) as E2.
  rewrite app_nil_r in E1, E2. rewrite E1, E2 by done. by rewrite app_nil_r.
Qed.

Lemma decimal_value_point ds fp :
  forallb isdecimal ds = true ->
  decimal_value (ds ++ 46 :: fp)
  = FDec false (digit_values (ds ++ fp)) (- Z.of_nat (length fp)).
Proof.
  intros H. unfold decimal_value.
  rewrite (take_while_app isdecimal ds (46 :: fp)),
          (drop_while_app isdecimal ds (46 :: fp));
    [done|done|by intros ? ? [= <- _]|done|by intros ? ? [= <- _]].
Qed.

(** [float] reads a numeric substring as the number it writes. *)
Lemma float_of_numeric_prefix c t :
  isdecimal c = true ->
  float_of_str (numeric_prefix (c :: t)) = Ok (decimal_value (numeric_prefix (c :: t))).
Proof.
  intros Hc. unfold numeric_prefix. cbn [take_while drop_while]. rewrite Hc.
  set (ip := take_while isdecimal t).
  assert (Hip : forallb isdecimal (c :: ip) = true).
  { simpl. rewrite Hc. apply take_while_all. }
  destruct (drop_while isdecimal t) as [|d r] eqn:Er;
    [|destruct (d =? 46) eqn:Ed; [apply N.eqb_eq in Ed as ->|]].
  - rewrite app_nil_r, decimal_value_integer by done. by apply float_of_digits.
  - rewrite decimal_value_point by done.
    apply float_of_digits_point; [done|apply take_while_all].
  - rewrite app_nil_r, decimal_value_integer by done. by apply float_of_digits.
Qed.

(** The area parser returns the number of the first numeric substring, and
    nothing for anything else. *)
Lemma parse_area_label_first_number label :
  parse_area_label label =
  Ok match label with
     | PStr s =>
         match first_number s with
         | Some token => PFloat (decimal_value token)
         | None => PNone
         end
     | _ => PNone
     end.
Proof.
  unfold parse_area_label.
  destruct label as [|b|z|f|s|b]; cbn [isinstance_str negb orb];
    rewrite ?orb_true_r; try done.
  destruct s as [|c0 s0]; [done|]. cbn [truthy negb orb].
  rewrite search_number_first. unfold first_number.
  destruct (drop_while _ (c0 :: s0)) as [|c t] eqn:E; [done|].
  apply drop_while_head in E. apply negb_false_iff in E.
  by rewrite float_of_numeric_prefix.
Qed.

End AreaFacts.

(** ** The upsert statement *)

Section SqlFacts.

Import Sql.

Context {numeric geometry : Type} `{EqDecision numeric}.
Variable geom_from_text : str -> option geometry.

Local Abbreviation row := (columns numeric (option geometry)).
Local Abbreviation table := (gmap Z row).
Local Abbreviation upsert_row := (Sql.upsert_row geom_from_text).
Local Abbreviation upsert_rows := (Sql.upsert_rows geom_from_text).
Local Abbreviation execute_upsert := (Sql.execute_upsert geom_from_text).
Local Abbreviation merged := (Sql.merged geom_from_text).
Local Abbreviation ST_GeomFromText := (Sql.ST_GeomFromText geom_from_text).
Local Abbreviation auckland_set := (@Sql.auckland_set numeric geometry).
Local Abbreviation qldc_set := (@Sql.qldc_set numeric geometry).
Local Abbreviation wellington_set := (@Sql.wellington_set numeric geometry).

Implicit Types (t : table) (st : @exec numeric geometry) (r : staged numeric)
  (k : Z) (set_cols : row -> row -> row).

Lemma is_distinct_from_iff {A} `{EqDecision A} (a b : option A) :
  is_distinct_from a b = true <-> a <> b.
Proof.
  destruct a as [x|], b as [y|]; simpl;
    rewrite ?negb_true_iff, ?bool_decide_eq_false; split; congruence.
Qed.

Lemma where_clause_iff {G G'} (properties : columns numeric G)
    (EXCLUDED : columns numeric G') :
  where_clause properties EXCLUDED = true <->
  capital_value properties <> capital_value EXCLUDED
  \/ physical_address properties <> physical_address EXCLUDED.
Proof.
  unfold where_clause. by rewrite orb_true_iff, !is_distinct_from_iff.
Qed.

Lemma where_clause_same {G G'} (properties : columns numeric G)
    (EXCLUDED : columns numeric G') :
  capital_value properties = capital_value EXCLUDED ->
  physical_address properties = physical_address EXCLUDED ->
  where_clause properties EXCLUDED = false.
Proof.
  intros H1 H2. apply not_true_is_false. rewrite where_clause_iff. tauto.
Qed.

Lemma auckland_writes_tracked : writes_tracked auckland_set.
Proof. done. Qed.
Lemma qldc_writes_tracked : writes_tracked qldc_set.
Proof. done. Qed.
Lemma wellington_writes_tracked : writes_tracked wellington_set.
Proof. done. Qed.

(** What one row of the statement does when it does not fail. *)
Lemma upsert_row_inv set_cols st r st' :
  upsert_row set_cols st r = inr st' ->
  exists k g,
    object_id r = Some k /\ ST_GeomFromText (geom (cols r)) = inr g /\
    ((tbl st !! k = None /\
      st' = Exec (<[k := proposed (cols r) g]> (tbl st)) ({[k]} ∪ touched st)
                 (S (rowcount st)))
     \/ (exists old, tbl st !! k = Some old /\ (k ∉ touched st) /\
          where_clause old (cols r) = true /\
          st' = Exec (<[k := set_cols old (proposed (cols r) g)]> (tbl st))
                     ({[k]} ∪ touched st) (S (rowcount st)))
     \/ (exists old, tbl st !! k = Some old /\ (k ∉ touched st) /\
          where_clause old (cols r) = false /\ st' = st)).
Proof.
  unfold Sql.upsert_row.
  destruct (ST_GeomFromText (geom (cols r))) as [e|g]; [done|].
  destruct (object_id r) as [k|]; [|done].
  destruct (tbl st !! k) as [old|] eqn:Ek.
  - case_bool_decide as Ht; [done|].
    change (where_clause old (proposed (cols r) g)) with (where_clause old (cols r)).
    destruct (where_clause old (cols r)) eqn:Ew; intros [= <-];
      exists k, g; repeat split; eauto 10.
  - intros [= <-]. exists k, g. repeat split; eauto.
Qed.

(** *** Frame: the columns outside the SET list *)

Lemma upsert_rows_frame (R : row -> row -> Prop) set_cols :
  (forall x, R x x) -> (forall x y z, R x y -> R y z -> R x z) ->
  (forall old new, R old (set_cols old new)) ->
  forall rows st st' o k old,
    upsert_rows set_cols st rows = (st', o) -> tbl st !! k = Some old ->
    exists new, tbl st' !! k = Some new /\ R old new.
Proof.
  intros Hrefl Htrans Hset. induction rows as [|r rows IH]; intros st st' o k old.
  - intros [= <- _] Hk. eauto.
  - cbn [Sql.upsert_rows]. destruct (upsert_row set_cols st r) as [e|st1] eqn:E.
    + intros [= <- _] Hk. eauto.
    + intros Hrows Hk.
      apply upsert_row_inv in E as (k' & g & _ & _ & [(Hn & ->)|[(o' & Ho & _ & _ & ->)|(o' & _ & _ & _ & ->)]]).
      * eapply IH; [done|]. cbn. rewrite lookup_insert_ne; [done|]. congruence.
      * destruct (decide (k' = k)) as [->|Hne].
        -- rewrite Hk in Ho. injection Ho as <-.
           edestruct (IH _ st' o k (set_cols old (proposed (cols r) g)) Hrows)
             as (new & Hnew & HR); [cbn; by rewrite lookup_insert_eq|].
           exists new. split; [done|]. eapply Htrans; [apply Hset|done].
        -- eapply IH; [done|]. cbn. by rewrite lookup_insert_ne.
      * by eapply IH.
Qed.

(** Keys the batch does not name keep their rows. *)
Lemma upsert_rows_other_keys set_cols rows st st' o k :
  upsert_rows set_cols st rows = (st', o) ->
  Some k ∉ map object_id rows ->
  tbl st' !! k = tbl st !! k.
Proof.
  revert st. induction rows as [|r rows IH]; intros st.
  - by intros [= <- _].
  - cbn [Sql.upsert_rows map]. intros Hrows Hk.
    apply not_elem_of_cons in Hk as [Hr Hk].
    destruct (upsert_row set_cols st r) as [e|st1] eqn:E.
    + by injection Hrows as <- _.
    + rewrite (IH st1) by done.
      apply upsert_row_inv in E as (k' & g & Hid & _ & [(_ & ->)|[(o' & _ & _ & _ & ->)|(o' & _ & _ & _ & ->)]]);
        cbn; rewrite ?lookup_insert_ne; congruence.
Qed.

(** *** Idempotence *)

(** After a merge of rows with distinct keys, every row of the batch finds
    its key in the table with the two tracked columns equal to its own. *)
Lemma upsert_rows_settled set_cols rows st st' :
  writes_tracked set_cols ->
  upsert_rows set_cols st rows = (st', None) ->
  NoDup (map object_id rows) ->
  forall r, r ∈ rows ->
    exists k g v, object_id r = Some k /\ ST_GeomFromText (geom (cols r)) = inr g
      /\ tbl st' !! k = Some v /\ where_clause v (cols r) = false.
Proof.
  intros Hset. revert st. induction rows as [|r0 rows IH]; intros st Hrows Hnd r Hr.
  - by apply elem_of_nil in Hr.
  - cbn [Sql.upsert_rows map] in *. apply NoDup_cons in Hnd as [Hfresh Hnd].
    destruct (upsert_row set_cols st r0) as [e|st1] eqn:E; [done|].
    apply elem_of_cons in Hr as [->|Hr]; [|by eapply IH].
    apply upsert_row_inv in E as (k & g & Hid & Hg & Hcase).
    rewrite Hid in Hfresh.
    exists k, g. rewrite (upsert_rows_other_keys _ _ _ _ _ _ Hrows Hfresh).
    destruct Hcase as [(_ & ->)|[(old & _ & _ & _ & ->)|(old & Hold & _ & Hw & ->)]]; cbn.
    + eexists. rewrite lookup_insert_eq. repeat split; [done..|].
      by apply where_clause_same.
    + eexists. rewrite lookup_insert_eq. repeat split; [done..|].
      destruct (Hset old (proposed (cols r0) g)) as (H1 & H2 & _).
      by apply where_clause_same.
    + eauto.
Qed.

(** Rows that find their key with equal tracked columns change nothing. *)
Lemma upsert_rows_noop set_cols rows t :
  (forall r, r ∈ rows ->
     exists k g v, object_id r = Some k /\ ST_GeomFromText (geom (cols r)) = inr g
       /\ t !! k = Some v /\ where_clause v (cols r) = false) ->
  upsert_rows set_cols (Exec t ∅ 0) rows = (Exec t ∅ 0, None).
Proof.
  induction rows as [|r rows IH]; intros Hall; [done|].
  cbn [Sql.upsert_rows].
  destruct (Hall r) as (k & g & v & Hid & Hg & Hv & Hw); [by left|].
  unfold Sql.upsert_row. rewrite Hg, Hid. cbn [tbl touched]. rewrite Hv.
  rewrite bool_decide_eq_false_2 by set_solver.
  change (where_clause v (proposed (cols r) g)) with (where_clause v (cols r)).
  rewrite Hw. apply IH. intros r' Hr'. apply Hall. by right.
Qed.

Lemma merge_twice set_cols t rows t1 n1 :
  writes_tracked set_cols ->
  NoDup (map object_id rows) ->
  merged set_cols t rows t1 n1 ->
  merged set_cols t1 rows t1 0.
Proof.
  unfold Sql.merged, Sql.execute_upsert. intros Hset Hnd.
  destruct (upsert_rows set_cols (Exec t ∅ 0) rows) as [st [e|]] eqn:E; [done|].
  intros [= <- _].
  rewrite upsert_rows_noop; [done|].
  by eapply upsert_rows_settled.
Qed.

(** *** What a merge that goes through has done *)

Lemma upsert_rows_success set_cols t rows : forall st st',
  upsert_rows set_cols st rows = (st', None) ->
  (forall k, k ∉ touched st -> tbl st !! k = t !! k) ->
  (forall k, k ∈ touched st -> is_Some (tbl st !! k)) ->
  (forall k, k ∉ touched st' -> tbl st' !! k = t !! k)
  /\ (forall k, k ∈ touched st' -> is_Some (tbl st' !! k))
  /\ rowcount st' = (rowcount st + length (List.filter (affected t) rows))%nat
  /\ (forall k, k ∈ touched st -> k ∈ touched st' /\ tbl st' !! k = tbl st !! k)
  /\ (forall r k, r ∈ rows -> object_id r = Some k -> affected t r = true ->
        exists g, ST_GeomFromText (geom (cols r)) = inr g /\
          tbl st' !! k = Some match t !! k with
                              | None => proposed (cols r) g
                              | Some old => set_cols old (proposed (cols r) g)
                              end)
  /\ (forall k, k ∈ touched st' ->
        k ∈ touched st \/
        exists r, r ∈ rows /\ object_id r = Some k /\ affected t r = true).
Proof.
  induction rows as [|r0 rows IH]; intros st st' Hrows Hinv Hsome.
  - injection Hrows as <-. split_and!; [done|done|simpl; lia|done| |by left].
    intros r k Hr. by apply elem_of_nil in Hr.
  - cbn [Sql.upsert_rows] in Hrows.
    destruct (upsert_row set_cols st r0) as [e|st1] eqn:E; [done|].
    apply upsert_row_inv in E as (k0 & g0 & Hid & Hg & Hcase).
    assert (Hfresh : k0 ∉ touched st).
    { destruct Hcase as [(Hn & _)|[(? & _ & ? & _)|(? & _ & ? & _)]]; [|done..].
      intros Hin. apply Hsome in Hin as [? Hin]. congruence. }
    assert (Hbase : tbl st !! k0 = t !! k0) by by apply Hinv.
    assert (Haff : affected t r0 = match tbl st !! k0 with
                                   | None => true
                                   | Some old => where_clause old (cols r0)
                                   end).
    { unfold affected. by rewrite Hid, Hbase. }
    assert (Hstep :
      (forall k, k ∉ touched st1 -> tbl st1 !! k = t !! k)
      /\ (forall k, k ∈ touched st1 -> is_Some (tbl st1 !! k))
      /\ rowcount st1 = (rowcount st + if affected t r0 then 1 else 0)%nat
      /\ (forall k, k ∈ touched st -> k ∈ touched st1 /\ tbl st1 !! k = tbl st !! k)
      /\ (affected t r0 = true -> k0 ∈ touched st1 /\
            tbl st1 !! k0 = Some match t !! k0 with
                                 | None => proposed (cols r0) g0
                                 | Some old => set_cols old (proposed (cols r0) g0)
                                 end)
      /\ (forall k, k ∈ touched st1 -> k ∈ touched st \/ (k = k0 /\ affected t r0 = true))).
    { destruct Hcase as [(Hn & ->)|[(old & Hold & _ & Hw & ->)|(old & Hold & _ & Hw & ->)]];
        rewrite ?Hn, ?Hold, ?Hw in Haff; rewrite Haff; cbn; split_and!.
      - intros k [Hk1%not_elem_of_singleton Hk2]%not_elem_of_union.
        rewrite lookup_insert_ne by done. by apply Hinv.
      - intros k [->%elem_of_singleton|Hk]%elem_of_union.
        + by rewrite lookup_insert_eq.
        + rewrite lookup_insert_ne; [by apply Hsome|]. congruence.
      - lia.
      - intros k Hk. split; [apply elem_of_union; by right|].
        rewrite lookup_insert_ne; [done|]. congruence.
      - intros _. split; [apply elem_of_union; left; by apply elem_of_singleton|].
        rewrite lookup_insert_eq. by rewrite <- Hbase, Hn.
      - intros k [->%elem_of_singleton|Hk]%elem_of_union; [by right|by left].
      - intros k [Hk1%not_elem_of_singleton Hk2]%not_elem_of_union.
        rewrite lookup_insert_ne by done. by apply Hinv.
      - intros k [->%elem_of_singleton|Hk]%elem_of_union.
        + by rewrite lookup_insert_eq.
        + rewrite lookup_insert_ne; [by apply Hsome|]. congruence.
      - lia.
      - intros k Hk. split; [apply elem_of_union; by right|].
        rewrite lookup_insert_ne; [done|]. congruence.
      - intros _. split; [apply elem_of_union; left; by apply elem_of_singleton|].
        rewrite lookup_insert_eq. by rewrite <- Hbase, Hold.
      - intros k [->%elem_of_singleton|Hk]%elem_of_union; [by right|by left].
      - done.
      - done.
      - lia.
      - done.
      - done.
      - by left. }
    destruct Hstep as (Hinv1 & Hsome1 & Hcnt1 & Hmono1 & Hhead & Hnew1).
    destruct (IH st1 st' Hrows Hinv1 Hsome1)
      as (Hinv' & Hsome' & Hcnt' & Hmono' & Hrows' & Hnew').
    split_and!; [done|done| | | |].
    + rewrite Hcnt', Hcnt1. cbn [List.filter]. destruct (affected t r0); simpl; lia.
    + intros k Hk. destruct (Hmono1 k Hk) as [Hk1 Hk2].
      destruct (Hmono' k Hk1) as [Hk3 Hk4]. split; [done|congruence].
    + intros r k [->|Hr]%elem_of_cons Hk Ha; [|by eapply Hrows'].
      assert (k = k0) as -> by congruence.
      destruct (Hhead Ha) as [Hin Hlook]. exists g0. split; [done|].
      destruct (Hmono' k0 Hin) as [_ ->]. done.
    + intros k Hk. destruct (Hnew' k Hk) as [Hk1|(r & Hr & Hrk & Hra)].
      * destruct (Hnew1 k Hk1) as [?|[-> Ha]]; [by left|].
        right. exists r0. split; [by left|done].
      * right. exists r. split; [by right|done].
Qed.

(** A merge that went through: the rows it affected, the rows it kept, and
    the row each affected record left behind. *)
Lemma merged_success set_cols t rows t' n :
  merged set_cols t rows t' n ->
  n = length (List.filter (affected t) rows)
  /\ (forall k, (forall r, r ∈ rows -> object_id r = Some k -> affected t r = false) ->
        t' !! k = t !! k)
  /\ (forall r k, r ∈ rows -> object_id r = Some k -> affected t r = true ->
        exists g, ST_GeomFromText (geom (cols r)) = inr g /\
          t' !! k = Some match t !! k with
                         | None => proposed (cols r) g
                         | Some old => set_cols old (proposed (cols r) g)
                         end).
Proof.
  unfold Sql.merged, Sql.execute_upsert.
  destruct (upsert_rows set_cols (Exec t ∅ 0) rows) as [st [e|]] eqn:E; [done|].
  intros [= <- <-].
  destruct (upsert_rows_success set_cols t rows _ _ E)
    as (Hinv & Hsome & Hcnt & _ & Hrows & Hnew);
    [done|by intros k Hk%elem_of_empty|].
  split; [exact Hcnt|]. split; [|exact Hrows].
  intros k Hk. apply Hinv. intros Hin.
  destruct (Hnew k Hin) as [Hin'%elem_of_empty|(r & Hr & Hrk & Hra)]; [done|].
  rewrite (Hk r Hr Hrk) in Hra. done.
Qed.

End SqlFacts.

(** ** The runs *)

Section SyncFacts.

Import Sql Sync.

Context {numeric geometry : Type} `{EqDecision numeric}.
Variable geom_from_text : str -> option geometry.
Variable adapt : values -> option (staged numeric).
Variable fetch : nat -> response.
Variable clock : nat -> nat -> timestamp.

Local Abbreviation row := (columns numeric (option geometry)).
Local Abbreviation table := (gmap Z row).
Local Abbreviation conn := (@connection numeric geometry).
Local Abbreviation paging := (Sync.paging geom_from_text adapt fetch clock).
Local Abbreviation merge_page := (Sync.merge_page geom_from_text adapt clock).
Local Abbreviation whole_pages := (Sync.whole_pages geom_from_text adapt fetch clock).
Local Abbreviation page_fails := (Sync.page_fails geom_from_text adapt fetch clock).

Section Loop.

Variable normalize : timestamp -> feature -> res (option values).
Variable set_cols : row -> row -> row.
Variable last_page : bool -> nat -> bool.

(** A page either leaves the committed table alone and raises, or commits
    the whole merge. *)
Lemma merge_page_cases total_records (c : conn) offset features total_processed :
  (exists c', merge_page normalize set_cols total_records c offset features total_processed
              = Raised c'
              /\ committed c' = committed c)
  \/ (exists vs rows t1 rows_affected,
        merge_page normalize set_cols total_records c offset features total_processed
        = Committed (Connection t1 t1) rows_affected
        /\ all_values normalize (clock offset) 0 features = Ok vs
        /\ stage adapt vs = Some rows
        /\ merged geom_from_text set_cols (working c) rows t1 rows_affected).
Proof.
  unfold Sync.merge_page, upsert_and_commit.
  destruct (progress _ _); [|left; eexists; split; reflexivity].
  destruct (all_values _ _ _ _) as [vs|] eqn:Ev; [|left; eexists; split; reflexivity].
  destruct (stage adapt vs) as [rows|] eqn:Es; [|left; eexists; split; reflexivity].
  destruct (execute_upsert _ _ _ _) as [t1 [e|n]] eqn:E; [left; eexists; split; reflexivity|].
  right. exists vs, rows, t1, n. split_and!; [reflexivity|reflexivity|exact Es|exact E].
Qed.

(** Every run ends on a table made of whole pages; after the handlers the
    transaction holds nothing else; a failed run stopped at the page after
    them. *)
Lemma paging_whole_pages total_records fuel : forall (c : conn) offset tp tu r,
  working c = committed c ->
  paging normalize set_cols last_page total_records fuel c offset tp tu = Some r ->
  exists n,
    whole_pages normalize set_cols offset (committed c) n
                (committed (connection_of (handlers r)))
    /\ working (connection_of (handlers r)) = committed (connection_of (handlers r))
    /\ (status r = Failed ->
        page_fails normalize set_cols total_records
                   (committed (connection_of (handlers r)))
                   (offset + n * records_per_page)).
Proof.
  induction fuel as [|fuel IH]; intros c offset tp tu r Hc; [done|].
  destruct c as [tc tw]. cbn in Hc. subst tw. cbn [Sync.paging committed].
  destruct (fetch offset) as [|features exceeded] eqn:Ef.
  { intros [= <-]. exists 0%nat. cbn. split_and!; [constructor|done|].
    intros _. unfold Sync.page_fails. by rewrite Nat.add_0_r, Ef. }
  destruct features as [|f features].
  { intros [= <-]. exists 0%nat. cbn. split_and!; [constructor|done..]. }
  set (fs := f :: features) in *.
  destruct (merge_page normalize set_cols total_records (Connection tc tc) offset fs
              (tp + length fs)) as [c'|c' n1] eqn:Em;
    destruct (merge_page_cases total_records (Connection tc tc) offset fs (tp + length fs))
      as [(c'' & Hr & Hc')|(vs & rows & t1 & n1' & Hcm & Hvs & Hst & Hm)];
    try congruence.
  - assert (c'' = c') as -> by congruence. cbn in Hc'.
    intros [= <-]. exists 0%nat. cbn. rewrite Hc'. split_and!; [constructor|done|].
    intros _. unfold Sync.page_fails. rewrite Nat.add_0_r, Ef. eauto.
  - assert (c' = Connection t1 t1 /\ n1 = n1') as [-> ->] by (split; congruence).
    cbn in Hm. destruct (last_page exceeded (length fs)).
    + intros [= <-]. exists 1%nat. cbn. split_and!; [|done..].
      econstructor; [done..|constructor].
    + intros Hrec. apply IH in Hrec as (n & Hw & Hwork & Hfail); [|done].
      exists (S n). split_and!; [|done|].
      * econstructor; done.
      * intros Hs. replace (offset + S n * records_per_page)%nat
          with (offset + records_per_page + n * records_per_page)%nat by lia. auto.
Qed.

(** *** Termination *)

(** Once the service answers a visited offset with an empty page, or with a
    page the last-page test accepts, the loop returns, whatever the fuel
    beyond the number of pages. *)
Lemma paging_terminates total_records k :
  (forall features exceeded,
     features <> [] -> exhausted (Page features exceeded) = true ->
     last_page exceeded (length features) = true) ->
  forall (c : conn) offset tp tu,
    exhausted (fetch (offset + k * records_per_page)) = true ->
    exists r, forall fuel, (k < fuel)%nat ->
      paging normalize set_cols last_page total_records fuel c offset tp tu = Some r.
Proof.
  intros Hlast. induction k as [|k IH]; intros c offset tp tu Hex.
  - rewrite Nat.add_0_r in Hex.
    destruct (fetch offset) as [|features exceeded] eqn:Ef; [done|].
    destruct features as [|f features].
    { eexists. intros [|fuel] Hf; [lia|]. cbn [Sync.paging]. by rewrite Ef. }
    set (fs := f :: features) in *.
    specialize (Hlast fs exceeded ltac:(done) Hex).
    destruct (merge_page normalize set_cols total_records c offset fs (tp + length fs))
      as [c'|c' n1] eqn:Em.
    + eexists. intros [|fuel] Hf; [lia|]. cbn [Sync.paging]. rewrite Ef.
      fold fs. by rewrite Em.
    + eexists. intros [|fuel] Hf; [lia|]. cbn [Sync.paging]. rewrite Ef.
      fold fs. by rewrite Em, Hlast.
  - destruct (fetch offset) as [|features exceeded] eqn:Ef.
    { eexists. intros [|fuel] Hf; [lia|]. cbn [Sync.paging]. by rewrite Ef. }
    destruct features as [|f features].
    { eexists. intros [|fuel] Hf; [lia|]. cbn [Sync.paging]. by rewrite Ef. }
    set (fs := f :: features) in *.
    destruct (merge_page normalize set_cols total_records c offset fs (tp + length fs))
      as [c'|c' n1] eqn:Em.
    { eexists. intros [|fuel] Hf; [lia|]. cbn [Sync.paging]. rewrite Ef.
      fold fs. by rewrite Em. }
    destruct (last_page exceeded (length fs)) eqn:El.
    { eexists. intros [|fuel] Hf; [lia|]. cbn [Sync.paging]. rewrite Ef.
      fold fs. by rewrite Em, El. }
    destruct (IH c' (offset + records_per_page)%nat (tp + length fs)%nat (tu + n1)%nat)
      as [r Hr].
    { replace (offset + records_per_page + k * records_per_page)%nat
        with (offset + S k * records_per_page)%nat by lia. done. }
    exists r. intros [|fuel] Hf; [lia|]. cbn [Sync.paging]. rewrite Ef.
    fold fs. rewrite Em, El. apply Hr. lia.
Qed.

(** The count only feeds the progress line: any two numbers other than
    zero give the same run. *)
Lemma paging_total_records (v v' : pyval) fuel :
  progress 0 v = Ok tt -> progress 0 v' = Ok tt ->
  forall (c : conn) offset tp tu,
    paging normalize set_cols last_page v fuel c offset tp tu
    = paging normalize set_cols last_page v' fuel c offset tp tu.
Proof.
  intros Hv Hv'. induction fuel as [|fuel IH]; intros c offset tp tu; [done|].
  cbn [Sync.paging]. destruct (fetch offset) as [|[|f features] exceeded]; [done..|].
  unfold Sync.merge_page.
  change (progress (tp + length (f :: features)) v) with (progress 0 v).
  change (progress (tp + length (f :: features)) v') with (progress 0 v').
  rewrite Hv, Hv'.
  destruct (all_values _ _ _ _) as [vs|]; [|done].
  destruct (stage adapt vs) as [rows|]; [|done].
  destruct (upsert_and_commit _ _ _ _) as [c'|c' n]; [done|].
  destruct (last_page _ _); [done|]. apply IH.
Qed.

End Loop.

End SyncFacts.

(** * The claims *)

(** ** Address decomposition and area labels *)

(** C4. For every address string, [parse_auckland_address] is the
    decomposition of the specification: the string is split on line breaks,
    the lines are trimmed and the blank ones discarded; the first line left
    is the street; when more than one line is left, a final line that ends
    in four digits gives them as postcode and what stands before them,
    trimmed, as locality, and a final line that does not gives no postcode
    and itself as locality.  Anything but a non-empty string gives three
    nulls. *)
Theorem address_decomposition (address_string : pyval) :
  parse_auckland_address address_string =
  match address_string with
  | PStr s => decompose_address s
  | _ => Address None None None
  end.
Proof.
  destruct address_string as [|b|z|f|s|b]; try apply parse_auckland_address_decompose;
    unfold parse_auckland_address; cbn [isinstance_str negb orb];
    by rewrite orb_true_r.
Qed.

(** C10. When the final non-blank line of a multi-line address ends in a
    run of five or more digits, the postcode is the last four of them and
    the locality is the rest of the line, the leading digits of the run
    included, trimmed. *)
Theorem postcode_from_long_digit_run (s first : str) (middle : list str)
    (before run : str) :
  nonblank_lines s = first :: middle ++ [before ++ run] ->
  forallb isdecimal run = true ->
  (5 <= length run)%nat ->
  parse_auckland_address (PStr s) =
  Address (Some first)
          (Some (strip (before ++ firstn (length run - 4) run)))
          (Some (skipn (length run - 4) run)).
Proof.
  intros Hlines Hrun Hlen.
  rewrite parse_auckland_address_decompose. unfold decompose_address.
  rewrite Hlines.
  assert (Hlast : forall d, List.last (middle ++ [before ++ run]) d = before ++ run)
    by (intros d; apply last_last).
  destruct (middle ++ [before ++ run]) as [|l rest] eqn:E.
  { by destruct middle. }
  rewrite Hlast. unfold trailing_postcode. rewrite length_app.
  replace (length before + length run - 4)%nat
    with (length before + (length run - 4))%nat by lia.
  rewrite skipn_app, firstn_app.
  rewrite (skipn_all2 before), (firstn_all2 before) by lia.
  replace (length before + (length run - 4) - length before)%nat
    with (length run - 4)%nat by lia.
  cbn [app].
  assert (Hd : forallb isdecimal (skipn (length run - 4) run) = true).
  { rewrite forallb_forall in *. intros x Hx. apply Hrun.
    rewrite <- (firstn_skipn (length run - 4) run). apply in_app_iff. by right. }
  rewrite Hd.
  replace (4 <=? length before + length run)%nat with true
    by (symmetry; apply Nat.leb_le; lia).
  done.
Qed.

Lemma postcode_from_long_digit_run_witness :
  parse_auckland_address (PStr (u "7 Ward Street" ++ [10] ++ u "Auckland 12345")) =
  Address (Some (u "7 Ward Street")) (Some (u "Auckland 1")) (Some (u "2345")).
Proof.
  apply (postcode_from_long_digit_run
           (u "7 Ward Street" ++ [10] ++ u "Auckland 12345")
           (u "7 Ward Street") [] (u "Auckland ") (u "12345")).
  - reflexivity.
  - reflexivity.
  - simpl. lia.
Defined.

(** C9. [parse_area_label] never raises.  On a string with a numeric
    substring (digits, then possibly a point and more digits) it returns
    the first of them as a float; on a string without a digit, on the empty
    string, on null and on any value that is not a string it returns
    null. *)
Theorem area_label_first_number (label : pyval) :
  parse_area_label label =
  Ok match label with
     | PStr s =>
         match first_number s with
         | Some token => PFloat (decimal_value token)
         | None => PNone
         end
     | _ => PNone
     end.
Proof. apply parse_area_label_first_number. Qed.

(** ** Geometry *)

(** C8. A geometry whose first ring is a list of N coordinate pairs encodes
    to the polygon literal of those N pairs, in their order and with no
    point added; the rings after the first play no part; a missing or null
    geometry, or one without rings, gives null. *)
Theorem polygon_literal (float_repr : pyfloat -> str)
    (ring : list (number * number)) (interior : list (list (list number))) :
  let pairs :=
    map (fun p => format_number float_repr (fst p) ++ u " "
                  ++ format_number float_repr (snd p)) ring in
  wkt_string float_repr
    (Present (Geometry (Some (map (fun p => [fst p; snd p]) ring :: interior))))
  = Ok (Some (u "POLYGON((" ++ join (u ", ") pairs ++ u "))"))
  /\ length pairs = length ring
  /\ wkt_string float_repr Absent = Ok None
  /\ wkt_string float_repr Null = Ok None
  /\ wkt_string float_repr (Present (Geometry None)) = Ok None.
Proof.
  intros pairs. split_and!; [|by unfold pairs; rewrite length_map|done..].
  unfold wkt_string.
  assert (Hmap : res_map (coord_pair float_repr) (map (fun p => [fst p; snd p]) ring)
                 = Ok pairs).
  { unfold pairs. clear pairs. induction ring as [|[x y] ring IH]; [done|].
    change (res_map (coord_pair float_repr)
              (map (fun p => [fst p; snd p]) ((x, y) :: ring)))
      with (ys ← res_map (coord_pair float_repr) (map (fun p => [fst p; snd p]) ring);
            Ok ((format_number float_repr x ++ u " " ++ format_number float_repr y)
                :: ys)).
    by rewrite IH. }
  by rewrite Hmap.
Qed.

(** ** Normalisation *)

(** C5. Normalisation is not total: in [sync_auckland_to_neon] a valuation
    date that arrives as text raises [TypeError] out of the loop body, and
    in [sync_wellington_to_neon] a land area that arrives as a label raises
    [ValueError]; the record is lost with the run, not degraded to null.
    The sibling paths are guarded: the Wellington date and the Auckland
    area label give null instead. *)
Theorem malformed_field_aborts_normalisation
    (float_repr : pyfloat -> str) (strptime_dmy : str -> res date) (now : timestamp) :
  normalize_auckland float_repr now Sample.dated_in_text = Raise TypeError
  /\ normalize_wellington float_repr strptime_dmy now Sample.labelled_area
     = Raise ValueError
  /\ wellington_date strptime_dmy (PInt 20210701) = None
  /\ parse_area_label (PStr (u "about an acre")) = Ok PNone.
Proof. split_and!; by vm_compute. Qed.

(** ** The merge *)

Section MergeClaims.

Import Sql.

Context {numeric geometry : Type} `{EqDecision numeric}.
Variable geom_from_text : str -> option geometry.

Local Abbreviation row := (columns numeric (option geometry)).
Local Abbreviation table := (gmap Z row).
Local Abbreviation merged := (Sql.merged geom_from_text).
Local Abbreviation auckland_set := (@Sql.auckland_set numeric geometry).
Local Abbreviation qldc_set := (@Sql.qldc_set numeric geometry).
Local Abbreviation wellington_set := (@Sql.wellington_set numeric geometry).

Implicit Types (t : table) (r : staged numeric) (k : Z)
  (set_cols : row -> row -> row).

Lemma scripts_write_tracked set_cols :
  set_cols = auckland_set \/ set_cols = qldc_set \/ set_cols = wellington_set ->
  writes_tracked set_cols.
Proof. by intros [-> | [-> | ->]]. Qed.

(** C1. Merging a batch of records with distinct object ids a second time,
    right after a merge of it went through, goes through as well, leaves
    the table as it is, [last_updated] included, and affects no row.  This
    holds for the upsert of each of the three scripts. *)
Theorem merge_same_batch_twice set_cols t rows t1 n1 :
  set_cols = auckland_set \/ set_cols = qldc_set \/ set_cols = wellington_set ->
  NoDup (map object_id rows) ->
  merged set_cols t rows t1 n1 ->
  merged set_cols t1 rows t1 0.
Proof.
  intros Hset. apply merge_twice. by apply scripts_write_tracked.
Qed.

(** C2. In a merge that goes through, take a record whose object id is in
    the table before the merge.  The WHERE clause holds of it exactly when
    its capital value or its physical address differs from the stored one,
    a null being equal to a null only; the record is among the rows
    affected exactly when the clause holds, the count being that of the
    records inserted or updated; when the clause holds, the stored row
    takes the record's [last_updated] and tracked columns; when it does not
    and the batch has no other record for the id, the stored row stays. *)
Theorem update_fires_iff_tracked_field_differs set_cols t rows t' n r k old :
  set_cols = auckland_set \/ set_cols = qldc_set \/ set_cols = wellington_set ->
  merged set_cols t rows t' n ->
  r ∈ rows -> object_id r = Some k -> t !! k = Some old ->
  (where_clause old (cols r) = true <->
     capital_value old <> capital_value (cols r)
     \/ physical_address old <> physical_address (cols r))
  /\ affected t r = where_clause old (cols r)
  /\ n = length (List.filter (affected t) rows)
  /\ (where_clause old (cols r) = true ->
      exists new, t' !! k = Some new
        /\ last_updated new = last_updated (cols r)
        /\ capital_value new = capital_value (cols r)
        /\ physical_address new = physical_address (cols r))
  /\ (where_clause old (cols r) = false ->
      (forall r', r' ∈ rows -> object_id r' = Some k -> r' = r) ->
      t' !! k = Some old).
Proof.
  intros Hset Hm Hr Hk Hold.
  apply scripts_write_tracked in Hset.
  destruct (merged_success _ _ _ _ _ _ Hm) as (Hn & Hkeep & Hfire).
  assert (Ha : affected t r = where_clause old (cols r)).
  { unfold affected. by rewrite Hk, Hold. }
  split_and!; [apply where_clause_iff|done|done| |].
  - intros Hw. rewrite <- Ha in Hw.
    destruct (Hfire r k Hr Hk Hw) as (g & _ & Hnew). rewrite Hold in Hnew.
    eexists. split; [exact Hnew|].
    destruct (Hset old (proposed (cols r) g)) as (H1 & H2 & H3). by rewrite H1, H2, H3.
  - intros Hw Honly. rewrite Hkeep; [done|].
    intros r' Hr' Hk'. rewrite (Honly r' Hr' Hk'). by rewrite Ha.
Qed.


End MergeClaims.

Lemma merge_same_batch_twice_witness :
  Sql.merged Sample.geom_from_text Sql.auckland_set Sample.stored Sample.batch
             Sample.merged_once 2
  /\ Sql.merged Sample.geom_from_text Sql.auckland_set Sample.merged_once
                Sample.batch Sample.merged_once 0.
Proof.
  assert (Hm : Sql.merged Sample.geom_from_text Sql.auckland_set Sample.stored
                          Sample.batch Sample.merged_once 2)
    by (vm_compute; reflexivity).
  split; [exact Hm|].
  apply (merge_same_batch_twice Sample.geom_from_text Sql.auckland_set
           Sample.stored Sample.batch Sample.merged_once 2).
  - left. reflexivity.
  - apply (bool_decide_unpack _). vm_compute. exact I.
  - exact Hm.
Defined.

Lemma update_fires_iff_tracked_field_differs_witness :
  exists new,
    Sample.merged_once !! 7%Z = Some new
    /\ Sql.last_updated new = 2%Z
    /\ Sql.capital_value new = Some 200%Z.
Proof.
  destruct (update_fires_iff_tracked_field_differs Sample.geom_from_text
              Sql.auckland_set Sample.stored Sample.batch Sample.merged_once 2
              Sample.revalued 7%Z
              (Sample.columns_of (Some 1%Z) (u "1 High Street") 100 1 None))
    as (_ & _ & _ & Hfire & _).
  - left. reflexivity.
  - vm_compute. reflexivity.
  - left.
  - reflexivity.
  - reflexivity.
  - destruct (Hfire eq_refl) as (new & Hnew & Hts & Hcv & _).
    exists new. split_and!; [exact Hnew|exact Hts|exact Hcv].
Defined.


(** A batch that names an id twice is another matter: the second merge of
    the sample below updates the row at its first record and is aborted at
    the second, which would affect the same row again. *)
Lemma repeated_id_aborts_second_merge :
  exists t1,
    Sql.execute_upsert Sample.geom_from_text Sql.auckland_set Sample.stored
                       Sample.repeated = (t1, inr 1%nat)
    /\ snd (Sql.execute_upsert Sample.geom_from_text Sql.auckland_set t1
                               Sample.repeated) = inl Sql.CardinalityViolation.
Proof. eexists. split; vm_compute; reflexivity. Qed.

(** ** The runs *)

Section RunClaims.

Import Sql Sync.

Context {numeric geometry : Type} `{EqDecision numeric}.
Variable geom_from_text : str -> option geometry.
Variable float_repr : pyfloat -> str.
Variable adapt : values -> option (staged numeric).
Variable fetch : nat -> response.
Variable clock : nat -> nat -> timestamp.

Local Abbreviation conn := (@connection numeric geometry).
Local Abbreviation sync_auckland_to_neon :=
  (Sync.sync_auckland_to_neon geom_from_text float_repr adapt fetch clock).
Local Abbreviation sync_arcgis_to_neon :=
  (Sync.sync_arcgis_to_neon geom_from_text float_repr adapt fetch clock).
Local Abbreviation whole_pages :=
  (Sync.whole_pages geom_from_text adapt fetch clock).
Local Abbreviation page_fails :=
  (Sync.page_fails geom_from_text adapt fetch clock).

(** C3. However a run of [sync_auckland_to_neon] ends, the committed table
    is the one reached by merging the first n pages, each as a whole, for
    some n, and the connection holds nothing beyond it: no page is applied
    in part.  When the run failed, the page that failed is the one after
    those n, and the n commits before it stand. *)
Theorem page_merge_all_or_nothing fuel total_records (c : conn) r :
  working c = committed c ->
  sync_auckland_to_neon fuel (Count total_records) c = Some r ->
  exists n,
    whole_pages (normalize_auckland float_repr) auckland_set 0 (committed c) n
                (committed (connection_of r))
    /\ working (connection_of r) = committed (connection_of r)
    /\ (status r = Failed ->
        page_fails (normalize_auckland float_repr) auckland_set total_records
                   (committed (connection_of r)) (n * records_per_page)).
Proof.
  intros Hc. unfold Sync.sync_auckland_to_neon, counted.
  destruct (equals_zero total_records).
  - intros [= <-]. exists 0%nat. cbn. split_and!; [constructor|done..].
  - destruct (paging _ _ _ _ _ _ _ _ _ _ _ _ _) as [r0|] eqn:E; [|done].
    intros [= <-].
    destruct (paging_whole_pages _ _ _ _ _ _ _ _ _ _ _ _ _ _ Hc E) as (n & Hw & Hk & Hf).
    exists n. split_and!; [done..|].
    intros Hs. apply Hf. unfold handlers in Hs.
    destruct (status r0) eqn:Es; [congruence|done].
Qed.

(** C7. Once the feature service answers one of the offsets the loop
    visits with an empty page, or with a short page without the
    exceeded-transfer-limit signal, [sync_auckland_to_neon] and
    [sync_arcgis_to_neon] return, with the same result for any fuel beyond
    the number of pages.  The count fetched up front plays no part: any two
    counts other than zero give the same run. *)
Theorem pagination_terminates k count (c : conn) :
  exhausted (fetch (k * records_per_page)) = true ->
  (exists r, forall fuel, (k < fuel)%nat -> sync_auckland_to_neon fuel count c = Some r)
  /\ (exists r, forall fuel, (k < fuel)%nat -> sync_arcgis_to_neon fuel count c = Some r)
  /\ (forall fuel z z', z <> 0%Z -> z' <> 0%Z ->
        sync_auckland_to_neon fuel (Count (PInt z)) c
        = sync_auckland_to_neon fuel (Count (PInt z')) c
        /\ sync_arcgis_to_neon fuel (Count (PInt z)) c
           = sync_arcgis_to_neon fuel (Count (PInt z')) c).
Proof.
  intros Hex. unfold Sync.sync_auckland_to_neon, Sync.sync_arcgis_to_neon, counted.
  split_and!.
  - destruct count as [|v]; [by eexists|].
    destruct (equals_zero v); [by eexists|].
    destruct (paging_terminates geom_from_text adapt fetch clock
                (normalize_auckland float_repr) auckland_set auckland_last_page v k)
      with (c := c) (offset := 0%nat) (tp := 0%nat) (tu := 0%nat) as [r Hr].
    + intros [|f fs] exceeded Hne; [done|]. done.
    + done.
    + exists (handlers r). intros fuel Hf. by rewrite Hr.
  - destruct count as [|v]; [by eexists|].
    destruct (equals_zero v); [by eexists|].
    destruct (paging_terminates geom_from_text adapt fetch clock
                (normalize_qldc float_repr) qldc_set qldc_last_page v k)
      with (c := c) (offset := 0%nat) (tp := 0%nat) (tu := 0%nat) as [r Hr].
    + intros [|f fs] exceeded Hne; [done|]. cbn [exhausted].
      by intros [_ ?]%andb_true_iff.
    + done.
    + exists (handlers r). intros fuel Hf. by rewrite Hr.
  - intros fuel z z' Hz Hz'.
    assert (Hp : forall x, x <> 0%Z -> progress 0 (PInt x) = Ok tt).
    { intros x Hx. unfold progress, equals_zero.
      by rewrite (proj2 (Z.eqb_neq x 0) Hx). }
    cbn [equals_zero].
    rewrite (proj2 (Z.eqb_neq z 0) Hz), (proj2 (Z.eqb_neq z' 0) Hz').
    split; f_equal; apply paging_total_records; auto.
Qed.

End RunClaims.

Lemma page_merge_all_or_nothing_witness :
  exists r,
    Sample.aborted_run = Some r
    /\ exists n,
         Sync.whole_pages Sample.geom_from_text Sample.adapt Sample.failing_second
           Sample.clock (normalize_auckland Sample.float_repr) Sql.auckland_set
           0 ∅ n (Sql.committed (Sync.connection_of r))
         /\ Sql.working (Sync.connection_of r) = Sql.committed (Sync.connection_of r)
         /\ (Sync.status r = Sync.Failed ->
             Sync.page_fails Sample.geom_from_text Sample.adapt Sample.failing_second
               Sample.clock (normalize_auckland Sample.float_repr) Sql.auckland_set
               (PInt 2) (Sql.committed (Sync.connection_of r))
               (n * Sync.records_per_page)).
Proof.
  eexists. split.
  - vm_compute. reflexivity.
  - apply (page_merge_all_or_nothing Sample.geom_from_text Sample.float_repr
             Sample.adapt Sample.failing_second Sample.clock 5 (PInt 2)
             (Sql.Connection ∅ ∅)).
    + reflexivity.
    + vm_compute. reflexivity.
Defined.

Lemma pagination_terminates_witness :
  exists r, forall fuel, (1 < fuel)%nat ->
    Sync.sync_auckland_to_neon Sample.geom_from_text Sample.float_repr Sample.adapt
      Sample.two_requests Sample.clock fuel (Sync.Count (PInt 2))
      (Sql.Connection ∅ ∅) = Some r.
Proof.
  destruct (pagination_terminates Sample.geom_from_text Sample.float_repr
              Sample.adapt Sample.two_requests Sample.clock 1
              (Sync.Count (PInt 2)) (Sql.Connection ∅ ∅)) as (Hauckland & _).
  - reflexivity.
  - exact Hauckland.
Defined.

(** * Further properties of the scripts *)

(** ** Addresses and area labels *)

Section TrimFacts.

Lemma rev_drop_while_prefix (p : N -> bool) (z : str) :
  exists w, z = rev (drop_while p (rev z)) ++ w.
Proof.
  exists (rev (take_while p (rev z))).
  rewrite <- rev_app_distr, take_drop_while. by rewrite rev_involutive.
Qed.

Lemma strip_head s c t : strip s = c :: t -> isspace c = false.
Proof.
  unfold strip, rstrip, lstrip. intros H.
  destruct (rev_drop_while_prefix isspace (drop_while isspace s)) as [w Hw].
  rewrite H in Hw. cbn [app] in Hw. by apply drop_while_head in Hw.
Qed.

Lemma strip_strip s : strip (strip s) = strip s.
Proof.
  assert (Hl : lstrip (strip s) = strip s).
  { unfold lstrip. destruct (strip s) as [|c t] eqn:E; [done|].
    cbn [drop_while]. by rewrite (strip_head s c t). }
  unfold strip at 1. rewrite Hl. unfold rstrip.
  apply rev_drop_while_rev. intros c Hc. by apply strip_last in Hc.
Qed.

Lemma drop_while_no_match (p : N -> bool) (a s : str) :
  forallb p a = true -> drop_while p (a ++ s) = drop_while p s.
Proof.
  induction a as [|c a IH]; [done|]. cbn [forallb app drop_while].
  intros [-> Ha]%andb_true_iff. by apply IH.
Qed.

End TrimFacts.

(** The postcode [parse_auckland_address] returns is always four decimal
    digits, whatever the address: it fits the [VARCHAR(4)] column. *)
Theorem postcode_is_four_digits (address_string : pyval) (p : str) :
  postcode (parse_auckland_address address_string) = Some p ->
  length p = 4%nat /\ forallb isdecimal p = true.
Proof.
  destruct address_string as [|b|z|f|s|b];
    try (unfold parse_auckland_address; cbn [isinstance_str negb orb];
         rewrite ?orb_true_r; done).
  rewrite parse_auckland_address_decompose. unfold decompose_address.
  destruct (nonblank_lines s) as [|first [|second rest]]; [done..|].
  destruct (trailing_postcode _) as [[before token]|] eqn:E; [|done].
  cbn [postcode]. intros [= <-].
  by apply trailing_postcode_split in E as (_ & _ & Hl & Hd).
Qed.

Lemma postcode_is_four_digits_witness :
  length (u "2120") = 4%nat /\ forallb isdecimal (u "2120") = true.
Proof.
  apply (postcode_is_four_digits (PStr Sample.ward_street) (u "2120")).
  reflexivity.
Defined.

(** The components [parse_auckland_address] returns are trimmed: a street
    is never empty and has no white space at either end, a locality has
    none either (it may be empty, when the last line is the postcode
    alone).  A locality comes only with a street, a postcode only with a
    locality. *)
Theorem address_components_are_trimmed (address_string : pyval) :
  let a := parse_auckland_address address_string in
  (forall s, street a = Some s -> s <> [] /\ strip s = s)
  /\ (forall l, locality a = Some l -> strip l = l)
  /\ (locality a <> None -> street a <> None)
  /\ (postcode a <> None -> locality a <> None).
Proof.
  destruct address_string as [|b|z|f|s|b];
    try (unfold parse_auckland_address; cbn [isinstance_str negb orb];
         rewrite ?orb_true_r; done).
  rewrite parse_auckland_address_decompose. unfold decompose_address.
  pose proof (nonblank_lines_stripped s) as Hin.
  destruct (nonblank_lines s) as [|first [|second rest]] eqn:El.
  - done.
  - cbn. split_and!; [|done..]. intros x [= <-].
    destruct (Hin first) as (Hne & y & ->); [by left|]. split; [done|apply strip_strip].
  - assert (Hfirst : first <> [] /\ strip first = first).
    { destruct (Hin first) as (Hne & y & ->); [by left|]. split; [done|apply strip_strip]. }
    assert (Hfinal : strip (List.last (second :: rest) []) = List.last (second :: rest) []).
    { destruct (Hin (List.last (second :: rest) [])) as (_ & y & ->); [|apply strip_strip].
      right. by apply last_In. }
    destruct (trailing_postcode _) as [[before token]|]; cbn.
    + split_and!; [by intros x [= <-]| |done..]. intros l [= <-]. apply strip_strip.
    + split_and!; [by intros x [= <-]| |done..]. by intros l [= <-].
Qed.

(** [parse_area_label] returns null or the float of a numeral that has no
    sign and no exponent, digits with at most one point among them: the
    result is never negative and never a NaN. *)
Theorem area_label_is_plain_decimal (label : pyval) :
  parse_area_label label = Ok PNone
  \/ exists mantissa exponent,
       parse_area_label label = Ok (PFloat (FDec false mantissa exponent))
       /\ (exponent <= 0)%Z.
Proof.
  rewrite parse_area_label_first_number.
  destruct label as [|b|z|f|s|b]; try by left.
  destruct (first_number s) as [token|]; [|by left].
  right. unfold decimal_value. eexists _, _. split; [reflexivity|lia].
Qed.

(** What stands before the first digit of an area label plays no part, a
    minus sign included. *)
Theorem area_label_ignores_what_precedes_the_digits (before s : str) :
  forallb (fun c => negb (isdecimal c)) before = true ->
  parse_area_label (PStr (before ++ s)) = parse_area_label (PStr s).
Proof.
  intros H. rewrite !parse_area_label_first_number. unfold first_number.
  by rewrite drop_while_no_match.
Qed.

Lemma area_label_ignores_what_precedes_the_digits_witness :
  parse_area_label (PStr (u "-" ++ u "12.5 m2")) = parse_area_label (PStr (u "12.5 m2")).
Proof.
  apply (area_label_ignores_what_precedes_the_digits (u "-") (u "12.5 m2")).
  reflexivity.
Defined.

(** ** Geometry and normalisation *)

Section NormaliseFacts.

Variable float_repr : pyfloat -> str.

Lemma coord_pairs_cases (ring : list (list number)) :
  if forallb (fun pt => Nat.eqb (length pt) 2) ring
  then exists pairs, res_map (coord_pair float_repr) ring = Ok pairs
  else res_map (coord_pair float_repr) ring = Raise ValueError.
Proof.
  induction ring as [|pt ring IH]; [by eexists|].
  cbn [forallb res_map].
  destruct pt as [|x [|y [|z pt]]]; cbn [length Nat.eqb andb]; try done.
  destruct (forallb _ ring).
  - destruct IH as [pairs ->]. by eexists.
  - by rewrite IH.
Qed.

Lemma wkt_string_cases (g : field geometry) :
  if malformed g
  then wkt_string float_repr g
       = Raise match g with
               | Present (Geometry (Some [])) => IndexError
               | _ => ValueError
               end
  else exists w, wkt_string float_repr g = Ok w.
Proof.
  destruct g as [| |[[rs|]]]; cbn [malformed wkt_string]; try by eexists.
  destruct rs as [|ring rs]; [done|].
  pose proof (coord_pairs_cases ring) as Hr.
  destruct (forallb _ ring); cbn [negb].
  - destruct Hr as [pairs ->]. by eexists.
  - by rewrite Hr.
Qed.

Lemma parse_area_label_returns label : exists v, parse_area_label label = Ok v.
Proof. rewrite parse_area_label_first_number. by eexists. Qed.

(** What the loop bodies of the two scripts that skip do with the id. *)
Lemma normalize_auckland_object_id now f o :
  normalize_auckland float_repr now f = Ok o ->
  match o with
  | None => feature_object_id f = PNone
  | Some v => v_object_id v = feature_object_id f /\ feature_object_id f <> PNone
  end.
Proof.
  unfold normalize_auckland, feature_object_id, attributes_get.
  destruct (attributes f) as [| |d]; cbn; [by intros [= <-]|done|].
  destruct (attr_get d "OBJECTID") eqn:Eid; [by intros [= <-]|..];
    (destruct (wkt_string float_repr (geometry_of f)); cbn; [|done];
     destruct (if truthy _ then _ else _); cbn; [|done];
     destruct (parse_area_label _); cbn; [|done];
     by intros [= <-]).
Qed.

Lemma normalize_qldc_object_id now f o :
  normalize_qldc float_repr now f = Ok o ->
  match o with
  | None => feature_object_id f = PNone
  | Some v => v_object_id v = feature_object_id f /\ feature_object_id f <> PNone
  end.
Proof.
  unfold normalize_qldc, feature_object_id, attributes_get.
  destruct (attributes f) as [| |d]; cbn; [by intros [= <-]|done|].
  destruct (attr_get d "OBJECTID") eqn:Eid; [by intros [= <-]|..];
    (destruct (wkt_string float_repr (geometry_of f)); cbn; [|done];
     by intros [= <-]).
Qed.

Lemma all_values_object_ids (normalize : timestamp -> feature -> res (option values)) :
  (forall now f o, normalize now f = Ok o ->
     match o with
     | None => feature_object_id f = PNone
     | Some v => v_object_id v = feature_object_id f /\ feature_object_id f <> PNone
     end) ->
  forall features clock i vs,
    all_values normalize clock i features = Ok vs ->
    map v_object_id vs
    = List.filter (fun v => negb (is_none v)) (map feature_object_id features)
    /\ (length vs <= length features)%nat.
Proof.
  intros Hn. induction features as [|f features IH]; intros clock i vs.
  - by intros [= <-].
  - cbn [all_values]. destruct (normalize (clock i) f) as [o|] eqn:E; cbn; [|done].
    destruct (all_values normalize clock (S i) features) as [vs'|] eqn:E'; cbn; [|done].
    intros [= <-]. apply Hn in E. destruct (IH _ _ _ E') as [IH1 IH2].
    destruct o as [v|].
    + destruct E as [E1 E2]. rewrite <- E1 in *. cbn.
      destruct (v_object_id v); cbn; [done|..]; (split; [by f_equal|lia]).
    + rewrite E. cbn. split; [done|lia].
Qed.

End NormaliseFacts.

(** The geometry encoder raises exactly on a geometry whose ['rings'] list
    is empty (IndexError) or whose first ring has a point that is not a
    pair of coordinates (ValueError), a point with a height for one.
    Later rings are not looked at. *)
Theorem wkt_string_raises_on_malformed (float_repr : pyfloat -> str)
    (g : field geometry) :
  (raises (wkt_string float_repr g) <-> malformed g = true)
  /\ (wkt_string float_repr g = Raise IndexError
      <-> g = Present (Geometry (Some [])))
  /\ (raises (wkt_string float_repr g) -> g <> Present (Geometry (Some [])) ->
      wkt_string float_repr g = Raise ValueError).
Proof.
  pose proof (wkt_string_cases float_repr g) as H.
  destruct (malformed g) eqn:Em.
  - rewrite H. destruct g as [| |[[[|ring rs]|]]]; try done.
    + split_and!; [split; [done|by eexists]|done|done].
    + split_and!; [split; [done|by eexists]|split; done|done].
  - destruct H as [w Hw]. rewrite Hw. split_and!.
    + split; [by intros [e ?]|done].
    + split; [done|]. intros ->. done.
    + by intros [e ?].
Qed.

(** In [sync_auckland_to_neon] and [sync_arcgis_to_neon] the tuples built
    from a page are those of the features that have an OBJECTID, one each
    and in the order of the page; a feature without one is skipped. *)
Theorem kept_records_are_those_with_object_id (float_repr : pyfloat -> str)
    (clock : nat -> timestamp) (i : nat) (features : list feature) (vs : list values) :
  all_values (normalize_auckland float_repr) clock i features = Ok vs
  \/ all_values (normalize_qldc float_repr) clock i features = Ok vs ->
  map v_object_id vs
  = List.filter (fun v => negb (is_none v)) (map feature_object_id features)
  /\ (length vs <= length features)%nat.
Proof.
  intros [H|H]; revert H; apply all_values_object_ids.
  - apply normalize_auckland_object_id.
  - apply normalize_qldc_object_id.
Qed.

Lemma kept_records_are_those_with_object_id_witness :
  map v_object_id
      [Values (PInt 101) PNone (PStr Sample.ward_street) (PStr (u "7 Ward Street"))
              (PStr (u "Auckland")) (PStr (u "2120")) PNone (PInt 850000) PNone
              PNone PNone (PFloat (FDec false 1234 0)) PNone (Some 18809%Z) 0%Z None
              (Some (u "POLYGON((0 0, 0 10, 10 10, 0 0))"))]
  = List.filter (fun v => negb (is_none v))
                (map feature_object_id [Sample.parcel_101; Sample.nameless])
  /\ (1 <= 2)%nat.
Proof.
  apply (kept_records_are_those_with_object_id Sample.float_repr (Sample.clock 0) 0
           [Sample.parcel_101; Sample.nameless]).
  left. vm_compute. reflexivity.
Defined.

Section DateFacts.

Lemma signed_abs (ms : Z) :
  (if (ms <? 0)%Z then (- Z.of_N (Z.abs_N ms))%Z else Z.of_N (Z.abs_N ms)) = ms.
Proof. destruct (Z.ltb_spec ms 0); lia. Qed.

Lemma fromtimestamp_of_milliseconds (ms : Z) :
  (min_date * 86400000 <= ms < (max_date + 1) * 86400000)%Z ->
  (t ← div_1000 (PInt ms); fromtimestamp_date t) = Ok (ms / 86400000)%Z.
Proof.
  intros Hr. unfold div_1000, float_of_int, int_fits_float.
  assert (Hfit : (Z.abs ms <? 2 ^ 1024 - 2 ^ 970)%Z = true).
  { apply Z.ltb_lt. apply Z.lt_trans with (10 ^ 18)%Z; [|by vm_compute].
    unfold min_date, max_date in Hr. lia. }
  rewrite Hfit. cbn [mbind res_bind fromtimestamp_date].
  change (0 <=? 0 - 3)%Z with false. cbn iota.
  rewrite signed_abs.
  change (86400 * 10 ^ (- (0 - 3)))%Z with 86400000%Z.
  assert (Hlo : (min_date <= ms / 86400000)%Z)
    by (apply Z.div_le_lower_bound; lia).
  assert (Hhi : (ms / 86400000 < max_date + 1)%Z)
    by (apply Z.div_lt_upper_bound; lia).
  rewrite (proj2 (Z.leb_le _ _) Hlo).
  rewrite (proj2 (Z.leb_le (ms / 86400000) max_date)) by lia.
  done.
Qed.

End DateFacts.

(** A feature of [sync_auckland_to_neon] with an OBJECTID, a geometry the
    encoder can read and a valuation date given as a whole number of
    milliseconds within the years 1 to 9999 is normalised without an
    exception, whatever its address, area label and other attributes.  Its
    valuation date is the UTC day of the instant; a timestamp of zero,
    1 January 1970, gives no date. *)
Theorem auckland_valuation_date_is_utc_day (float_repr : pyfloat -> str)
    (now : timestamp) (f : feature) (d : gmap str pyval) (ms : Z) :
  attributes f = Present d ->
  attr_get d "OBJECTID" <> PNone ->
  malformed (geometry_of f) = false ->
  attr_get d "LATESTVALUATIONDATE" = PInt ms ->
  (min_date * 86400000 <= ms < (max_date + 1) * 86400000)%Z ->
  exists v,
    normalize_auckland float_repr now f = Ok (Some v)
    /\ v_valuation_date v
       = (if (ms =? 0)%Z then None else Some (ms / 86400000)%Z).
Proof.
  intros Ha Hid Hg Hd Hr.
  pose proof (wkt_string_cases float_repr (geometry_of f)) as Hw.
  rewrite Hg in Hw. destruct Hw as [w Hw].
  destruct (parse_area_label_returns (attr_get d "AREALABEL")) as [area Harea].
  assert (Hdate :
    (if truthy (PInt ms)
     then t ← div_1000 (PInt ms); day ← fromtimestamp_date t; Ok (Some day)
     else Ok None)
    = Ok (if (ms =? 0)%Z then None else Some (ms / 86400000)%Z)).
  { cbn [truthy]. destruct (ms =? 0)%Z; [done|]. cbn [negb].
    pose proof (fromtimestamp_of_milliseconds ms Hr) as Hday.
    destruct (div_1000 (PInt ms)) as [t|]; cbn in *; [|done]. by rewrite Hday. }
  unfold normalize_auckland, attributes_get. rewrite Ha. cbn [mbind res_bind].
  rewrite Hw, Hd, Hdate, Harea. cbn [mbind res_bind].
  destruct (attr_get d "OBJECTID"); [done|..]; by eexists.
Qed.

Lemma auckland_valuation_date_is_utc_day_witness :
  exists v,
    normalize_auckland Sample.float_repr 0%Z Sample.parcel_101 = Ok (Some v)
    /\ v_valuation_date v
       = (if (1625097600000 =? 0)%Z then None
          else Some (1625097600000 / 86400000)%Z).
Proof.
  eapply (auckland_valuation_date_is_utc_day Sample.float_repr 0%Z Sample.parcel_101
            _ 1625097600000).
  - reflexivity.
  - by vm_compute.
  - reflexivity.
  - by vm_compute.
  - unfold min_date, max_date. lia.
Defined.

(** The loop body of [sync_arcgis_to_neon] raises on exactly two kinds of
    feature: one whose ['attributes'] is a JSON null, and one that has an
    OBJECTID and a geometry the encoder cannot read.  A feature without
    OBJECTID is skipped before its geometry is looked at. *)
Theorem normalize_qldc_raises_iff (float_repr : pyfloat -> str)
    (now : timestamp) (f : feature) :
  raises (normalize_qldc float_repr now f)
  <-> attributes f = Null
      \/ (feature_object_id f <> PNone /\ malformed (geometry_of f) = true).
Proof.
  pose proof (wkt_string_cases float_repr (geometry_of f)) as Hw.
  unfold normalize_qldc, feature_object_id, attributes_get, raises.
  destruct (attributes f) as [| |d]; cbn [mbind res_bind].
  - split; [by intros [e ?]|]. by intros [?|[? _]].
  - split; [by left|by eexists].
  - destruct (malformed (geometry_of f)).
    + rewrite Hw. destruct (attr_get d "OBJECTID"); cbn;
        (split; [intros [e He]; try done; by right|]);
        (intros [?|[? _]]; [done|]; try done; by eexists).
    + destruct Hw as [w ->]. destruct (attr_get d "OBJECTID"); cbn;
        (split; [by intros [e ?]|by intros [?|[_ ?]]]).
Qed.

(** In [sync_wellington_to_neon] a feature with attributes and a geometry
    the encoder can read, whose land area is missing, null, zero or an
    empty text, is normalised without an exception, whatever its date and
    other attributes: its survey area is null, a zero area included. *)
Theorem wellington_zero_land_area_is_null (float_repr : pyfloat -> str)
    (strptime_dmy : str -> res date) (now : timestamp) (f : feature)
    (d : gmap str pyval) :
  attributes f = Present d ->
  malformed (geometry_of f) = false ->
  truthy (attr_get d "LandArea") = false ->
  exists v,
    normalize_wellington float_repr strptime_dmy now f = Ok v
    /\ v_survey_area v = PNone
    /\ v_object_id v = attr_get d "OBJECTID".
Proof.
  intros Ha Hg Hz.
  pose proof (wkt_string_cases float_repr (geometry_of f)) as Hw.
  rewrite Hg in Hw. destruct Hw as [w Hw].
  unfold normalize_wellington, attributes_item. rewrite Ha. cbn [mbind res_bind].
  rewrite Hw, Hz. cbn [mbind res_bind]. by eexists.
Qed.

Lemma wellington_zero_land_area_is_null_witness :
  exists v,
    normalize_wellington Sample.float_repr Sample.strptime_dmy 0%Z Cases.zero_area = Ok v
    /\ v_survey_area v = PNone
    /\ v_object_id v = attr_get Cases.zero_area_attributes "OBJECTID".
Proof.
  apply (wellington_zero_land_area_is_null Sample.float_repr Sample.strptime_dmy 0%Z
           Cases.zero_area Cases.zero_area_attributes).
  - reflexivity.
  - reflexivity.
  - by vm_compute.
Defined.

(** ** The upsert statement: keys, counts and failures *)

Section MergeFacts.

Import Sql.

Context {numeric geometry : Type} `{EqDecision numeric}.
Variable geom_from_text : str -> option geometry.

Local Abbreviation row := (columns numeric (option geometry)).
Local Abbreviation table := (gmap Z row).
Local Abbreviation upsert_row := (Sql.upsert_row geom_from_text).
Local Abbreviation upsert_rows := (Sql.upsert_rows geom_from_text).
Local Abbreviation execute_upsert := (Sql.execute_upsert geom_from_text).
Local Abbreviation merged := (Sql.merged geom_from_text).
Local Abbreviation ST_GeomFromText := (Sql.ST_GeomFromText geom_from_text).

Implicit Types (t : table) (st : @exec numeric geometry) (r : staged numeric)
  (k : Z) (set_cols : row -> row -> row).

Lemma upsert_rows_app set_cols st l1 l2 :
  upsert_rows set_cols st (l1 ++ l2)
  = match upsert_rows set_cols st l1 with
    | (st1, None) => upsert_rows set_cols st1 l2
    | failed => failed
    end.
Proof.
  revert st. induction l1 as [|r l1 IH]; intros st; [done|].
  cbn [app Sql.upsert_rows]. by destruct (upsert_row set_cols st r).
Qed.

(** Every row of a statement that went through had a key. *)
Lemma upsert_rows_keys set_cols rows st st' :
  upsert_rows set_cols st rows = (st', None) ->
  forall r, r ∈ rows -> is_Some (object_id r).
Proof.
  revert st. induction rows as [|r0 rows IH]; intros st Hrows r Hr.
  - by apply elem_of_nil in Hr.
  - cbn [Sql.upsert_rows] in Hrows.
    destruct (upsert_row set_cols st r0) as [e|st1] eqn:E; [done|].
    apply elem_of_cons in Hr as [->|Hr]; [|by eapply IH].
    apply upsert_row_inv in E as (k & g & -> & _). by eexists.
Qed.

(** A row without a key stops the statement, if nothing stopped it
    before. *)
Lemma upsert_rows_null_key set_cols rows st r :
  r ∈ rows -> object_id r = None ->
  exists e, snd (upsert_rows set_cols st rows) = Some e.
Proof.
  intros Hr Hid. destruct (upsert_rows set_cols st rows) as [st' [e|]] eqn:E.
  - by eexists.
  - destruct (upsert_rows_keys _ _ _ _ E r Hr) as [k Hk]. congruence.
Qed.

(** A key the statement has written cannot come again. *)
Lemma upsert_rows_touched_again set_cols k rows : forall st,
  (forall k', k' ∈ touched st -> is_Some (tbl st !! k')) ->
  k ∈ touched st ->
  (exists r, r ∈ rows /\ object_id r = Some k) ->
  exists e, snd (upsert_rows set_cols st rows) = Some e.
Proof.
  induction rows as [|r0 rows IH]; intros st Hsome Hk (r & Hr & Hid).
  - by apply elem_of_nil in Hr.
  - cbn [Sql.upsert_rows].
    destruct (upsert_row set_cols st r0) as [e|st1] eqn:E; [by eexists|].
    apply upsert_row_inv in E as (k0 & g0 & Hid0 & _ & Hcase).
    assert (Hne : k0 <> k).
    { intros ->. destruct Hcase as [(Hn & _)|[(? & _ & ? & _)|(? & _ & ? & _)]]; [|done..].
      apply Hsome in Hk as [? Hk]. congruence. }
    apply IH.
    + destruct Hcase as [(_ & ->)|[(old & Hold & _ & _ & ->)|(_ & _ & _ & _ & ->)]];
        [| |done]; cbn; intros k' [->%elem_of_singleton|Hk']%elem_of_union;
        rewrite ?lookup_insert_eq; try done;
        (destruct (decide (k0 = k')) as [->|?];
         [by rewrite lookup_insert_eq|rewrite lookup_insert_ne by done; by apply Hsome]).
    + destruct Hcase as [(_ & ->)|[(old & _ & _ & _ & ->)|(_ & _ & _ & _ & ->)]];
        [| |done]; cbn; apply elem_of_union; by right.
    + exists r. split; [|done]. apply elem_of_cons in Hr as [->|Hr]; [congruence|done].
Qed.

Lemma execute_upsert_fails set_cols t rows e :
  snd (upsert_rows set_cols (Exec t ∅ 0) rows) = Some e ->
  snd (execute_upsert set_cols t rows) = inl e.
Proof.
  unfold Sql.execute_upsert.
  destruct (upsert_rows set_cols (Exec t ∅ 0) rows) as [st [e'|]]; cbn; congruence.
Qed.


(** A merge never deletes a row: the object ids in the table afterwards
    are those it held before and those the batch names. *)
Theorem merge_keeps_and_adds_keys set_cols t rows t' n k :
  merged set_cols t rows t' n ->
  is_Some (t' !! k) <-> is_Some (t !! k) \/ Some k ∈ map object_id rows.
Proof.
  intros Hm.
  destruct (merged_success _ _ _ _ _ _ Hm) as (_ & Hkeep & Hfire).
  assert (Hstay : is_Some (t !! k) -> is_Some (t' !! k)).
  { intros [old Hold]. revert Hm. unfold Sql.merged, Sql.execute_upsert.
    destruct (upsert_rows set_cols (Exec t ∅ 0) rows) as [st o] eqn:E.
    intros Hm. assert (t' = tbl st) as -> by (destruct o; congruence).
    destruct (upsert_rows_frame geom_from_text (fun _ _ => True) set_cols) with
      (rows := rows) (st := Exec t ∅ 0) (st' := st) (o := o) (k := k) (old := old)
      as (new & Hnew & _); [done..|]. by eexists. }
  split.
  - intros Hk.
    destruct (decide (Some k ∈ map object_id rows)) as [Hin|Hout]; [by right|].
    left. rewrite <- Hkeep; [done|].
    intros r Hr Hid. exfalso. apply Hout. rewrite <- Hid.
    by apply list_elem_of_fmap_2.
  - intros [Hk|Hin]; [by apply Hstay|].
    apply list_elem_of_fmap in Hin as (r & Hid & Hr). symmetry in Hid.
    destruct (affected t r) eqn:Ea.
    + destruct (Hfire r k Hr Hid Ea) as (g & _ & ->). by eexists.
    + apply Hstay. unfold affected in Ea. rewrite Hid in Ea.
      destruct (t !! k); [by eexists|done].
Qed.

(** Whether the statement goes through or fails, the rows whose object id
    the batch does not name are as they were. *)
Theorem rows_outside_the_batch_are_untouched set_cols t rows k :
  Some k ∉ map object_id rows ->
  fst (execute_upsert set_cols t rows) !! k = t !! k.
Proof.
  intros Hk. unfold Sql.execute_upsert.
  destruct (upsert_rows set_cols (Exec t ∅ 0) rows) as [st o] eqn:E.
  pose proof (upsert_rows_other_keys geom_from_text _ _ _ _ _ _ E Hk) as Hsame.
  cbn [tbl] in Hsame. rewrite <- Hsame. by destruct o.
Qed.

(** The rows-affected count of a merge is at most the number of records
    in the batch, and it is that number when none of their object ids was
    in the table, as on the first load. *)
Theorem rows_affected_bounds set_cols t rows t' n :
  merged set_cols t rows t' n ->
  (n <= length rows)%nat
  /\ ((forall r k, r ∈ rows -> object_id r = Some k -> t !! k = None) ->
      n = length rows).
Proof.
  intros Hm. destruct (merged_success _ _ _ _ _ _ Hm) as (-> & _ & _).
  split; [apply List.filter_length_le|].
  intros Hfresh. f_equal. apply forallb_filter_id, forallb_forall.
  intros r Hr%list_elem_of_In.
  revert Hm. unfold Sql.merged, Sql.execute_upsert.
  destruct (upsert_rows set_cols (Exec t ∅ 0) rows) as [st [e|]] eqn:E; [done|].
  intros _. destruct (upsert_rows_keys _ _ _ _ E r Hr) as [k Hk].
  unfold affected. by rewrite Hk, (Hfresh r k Hr Hk).
Qed.

(** A batch that names an object id twice, the first time on a record the
    merge would insert or update, makes the statement fail: nothing of
    the batch can be committed. *)
Theorem repeated_object_id_aborts_merge set_cols t l1 r1 l2 r2 l3 k :
  object_id r1 = Some k -> object_id r2 = Some k -> affected t r1 = true ->
  exists e, snd (execute_upsert set_cols t (l1 ++ r1 :: l2 ++ r2 :: l3)) = inl e.
Proof.
  intros Hk1 Hk2 Ha.
  cut (exists e, snd (upsert_rows set_cols (Exec t ∅ 0) (l1 ++ r1 :: l2 ++ r2 :: l3))
                 = Some e).
  { intros [e He]. exists e. by apply execute_upsert_fails. }
  rewrite upsert_rows_app.
  destruct (upsert_rows set_cols (Exec t ∅ 0) l1) as [st1 [e|]] eqn:E1; [by eexists|].
  destruct (upsert_rows_success geom_from_text set_cols t l1 _ _ E1)
    as (Hinv & Hsome & _); [done|by intros k' Hk'%elem_of_empty|].
  cbn [Sql.upsert_rows].
  destruct (upsert_row set_cols st1 r1) as [e|st2] eqn:E2; [by eexists|].
  apply upsert_row_inv in E2 as (k0 & g0 & Hid0 & _ & Hcase).
  assert (k0 = k) as -> by congruence.
  assert (Hin : k ∈ touched st2 /\ forall k', k' ∈ touched st2 -> is_Some (tbl st2 !! k')).
  { destruct Hcase as [(_ & ->)|[(old & _ & _ & _ & ->)|(old & Hold & Hout & Hw & ->)]]; cbn.
    - split; [apply elem_of_union; left; by apply elem_of_singleton|].
      intros k' [->%elem_of_singleton|Hk']%elem_of_union;
        [by rewrite lookup_insert_eq|].
      destruct (decide (k = k')) as [->|?];
        [by rewrite lookup_insert_eq|rewrite lookup_insert_ne by done; by apply Hsome].
    - split; [apply elem_of_union; left; by apply elem_of_singleton|].
      intros k' [->%elem_of_singleton|Hk']%elem_of_union;
        [by rewrite lookup_insert_eq|].
      destruct (decide (k = k')) as [->|?];
        [by rewrite lookup_insert_eq|rewrite lookup_insert_ne by done; by apply Hsome].
    - exfalso. unfold affected in Ha. rewrite Hk1, <- (Hinv k Hout), Hold in Ha.
      congruence. }
  destruct Hin as [Hin Hsome2].
  apply (upsert_rows_touched_again set_cols k); [done..|].
  exists r2. split; [|done]. apply elem_of_app. right. by left.
Qed.

End MergeFacts.


Lemma merge_keeps_and_adds_keys_witness :
  is_Some (Sample.merged_once !! 7%Z)
  <-> is_Some (Sample.stored !! 7%Z) \/ Some 7%Z ∈ map Sql.object_id Sample.batch.
Proof.
  apply (merge_keeps_and_adds_keys Sample.geom_from_text Sql.auckland_set
           Sample.stored Sample.batch Sample.merged_once 2 7).
  vm_compute. reflexivity.
Defined.

Lemma rows_outside_the_batch_are_untouched_witness :
  fst (Sql.execute_upsert Sample.geom_from_text Sql.qldc_set Sample.stored
         [Sample.newcomer]) !! 7%Z
  = Sample.stored !! 7%Z.
Proof.
  apply (rows_outside_the_batch_are_untouched Sample.geom_from_text Sql.qldc_set
           Sample.stored [Sample.newcomer] 7).
  apply (bool_decide_unpack _). vm_compute. exact I.
Defined.

Lemma rows_affected_bounds_witness :
  (2 <= length Sample.batch)%nat
  /\ ((forall r k, r ∈ Sample.batch -> Sql.object_id r = Some k ->
         (∅ : gmap Z (Sql.columns Z (option str))) !! k = None) ->
      2%nat = length Sample.batch).
Proof.
  apply (rows_affected_bounds Sample.geom_from_text Sql.wellington_set ∅ Sample.batch
           (fst (Sql.execute_upsert Sample.geom_from_text Sql.wellington_set ∅
                   Sample.batch)) 2).
  vm_compute. reflexivity.
Defined.

Lemma repeated_object_id_aborts_merge_witness :
  exists e, snd (Sql.execute_upsert Sample.geom_from_text Sql.auckland_set Sample.stored
                   ([] ++ Sample.revalued :: [Sample.newcomer] ++ Sample.revalued :: []))
            = inl e.
Proof.
  apply (repeated_object_id_aborts_merge Sample.geom_from_text Sql.auckland_set
           Sample.stored [] Sample.revalued [Sample.newcomer] Sample.revalued [] 7).
  - reflexivity.
  - reflexivity.
  - vm_compute. reflexivity.
Defined.

(** ** The runs: counters, the count, the last page *)

Section RunFacts.

Import Sql Sync.

Context {numeric geometry : Type} `{EqDecision numeric}.
Variable geom_from_text : str -> option geometry.
Variable adapt : values -> option (staged numeric).
Variable clock : nat -> nat -> timestamp.

Local Abbreviation row := (columns numeric (option geometry)).
Local Abbreviation table := (gmap Z row).
Local Abbreviation conn := (@connection numeric geometry).
Local Abbreviation paging := (Sync.paging geom_from_text adapt).
Local Abbreviation merge_page := (Sync.merge_page geom_from_text adapt clock).
Local Abbreviation stage := (Sync.stage adapt).

Lemma all_values_length (normalize : timestamp -> feature -> res (option values)) :
  forall features tick i vs,
    all_values normalize tick i features = Ok vs ->
    (length vs <= length features)%nat.
Proof.
  induction features as [|f features IH]; intros tick i vs.
  - by intros [= <-].
  - cbn [all_values]. destruct (normalize (tick i) f) as [o|]; cbn; [|done].
    destruct (all_values normalize tick (S i) features) as [vs'|] eqn:E'; cbn; [|done].
    intros [= <-]. apply IH in E'. destruct o; cbn; lia.
Qed.

Lemma stage_length vs rows : stage vs = Some rows -> length rows = length vs.
Proof.
  revert rows. induction vs as [|v vs IH]; intros rows; [by intros [= <-]|].
  cbn [Sync.stage]. destruct (adapt v); [|done].
  destruct (stage vs) as [rs|]; [|done]. intros [= <-]. cbn. by rewrite (IH rs).
Qed.

Lemma stage_elem vs rows v :
  stage vs = Some rows -> v ∈ vs -> exists r, r ∈ rows /\ adapt v = Some r.
Proof.
  revert rows. induction vs as [|v0 vs IH]; intros rows Hs Hv.
  - by apply elem_of_nil in Hv.
  - cbn [Sync.stage] in Hs. destruct (adapt v0) as [r0|] eqn:E0; [|done].
    destruct (stage vs) as [rs|]; [|done]. injection Hs as <-.
    apply elem_of_cons in Hv as [->|Hv].
    + exists r0. split; [by left|done].
    + destruct (IH rs eq_refl Hv) as (r & Hr & Ha). exists r. split; [by right|done].
Qed.

Lemma merged_count_le (set_cols : row -> row -> row) (t : table) rows t' n :
  merged geom_from_text set_cols t rows t' n -> (n <= length rows)%nat.
Proof.
  intros Hm. destruct (merged_success _ _ _ _ _ _ Hm) as (-> & _).
  apply List.filter_length_le.
Qed.

Section Loop.

Variable normalize : timestamp -> feature -> res (option values).
Variable set_cols : row -> row -> row.
Variable last_page : bool -> nat -> bool.

(** A page that commits affects at most as many rows as it has
    features. *)
Lemma merge_page_count total_records (c : conn) offset features tp c' n :
  Sync.merge_page geom_from_text adapt clock normalize set_cols total_records
                  c offset features tp = Committed c' n ->
  (n <= length features)%nat.
Proof.
  intros Hc.
  destruct (merge_page_cases geom_from_text adapt clock normalize set_cols
              total_records c offset features tp)
    as [(c'' & Hr & _)|(vs & rows & t1 & n' & Hcm & Hvs & Hst & Hm)]; [congruence|].
  assert (n = n') as -> by congruence.
  apply merged_count_le in Hm. apply all_values_length in Hvs.
  apply stage_length in Hst. lia.
Qed.

Lemma paging_counters fetch total_records fuel : forall (c : conn) offset tp tu r,
  paging fetch clock normalize set_cols last_page total_records fuel c offset tp tu
  = Some r ->
  (tu <= tp)%nat -> (total_upserted r <= total_processed r)%nat.
Proof.
  induction fuel as [|fuel IH]; intros c offset tp tu r; [done|].
  cbn [Sync.paging]. destruct (fetch offset) as [|[|f features] exceeded].
  - intros [= <-] Hle. done.
  - intros [= <-] Hle. done.
  - set (fs := f :: features).
    destruct (Sync.merge_page _ _ _ _ _ _ _ _ _ _) as [c'|c' n] eqn:Em.
    + intros [= <-] Hle. cbn. lia.
    + apply merge_page_count in Em. subst fs. cbn [length] in *.
      destruct (last_page exceeded (S (length features))).
      * intros [= <-] Hle. cbn. lia.
      * intros Hrec Hle. apply IH in Hrec; [done|lia].
Qed.

(** A count that is no number makes the progress line raise at the first
    page that has features. *)
Lemma paging_without_a_number fetch total_records fuel (c : conn) :
  is_number total_records = false ->
  paging fetch clock normalize set_cols last_page total_records (S fuel) c 0 0 0
  = Some match fetch 0%nat with
         | RequestFailed => Report Failed c 0 0
         | Page [] _ => Report Done c 0 0
         | Page features _ => Report Failed c (length features) 0
         end.
Proof.
  intros Hv. cbn [Sync.paging].
  destruct (fetch 0%nat) as [|[|f features] exceeded]; [done..|].
  unfold Sync.merge_page.
  assert (Hp : forall tp, exists e, progress tp total_records = Raise e).
  { intros tp. destruct total_records; try done; by eexists. }
  destruct (Hp (0 + length (f :: features))%nat) as [e ->]. done.
Qed.

(** A run that ends well ended on a page the last-page test accepts, or on
    an empty one. *)
Lemma paging_done fetch total_records fuel : forall (c : conn) offset tp tu r,
  paging fetch clock normalize set_cols last_page total_records fuel c offset tp tu
  = Some r ->
  status r = Done ->
  exists n features exceeded,
    (n < fuel)%nat
    /\ fetch (offset + n * records_per_page)%nat = Page features exceeded
    /\ (features = [] \/ last_page exceeded (length features) = true).
Proof.
  induction fuel as [|fuel IH]; intros c offset tp tu r; [done|].
  cbn [Sync.paging]. destruct (fetch offset) as [|[|f features] exceeded] eqn:Ef.
  - by intros [= <-].
  - intros [= <-] _. exists 0%nat, [], exceeded.
    rewrite Nat.add_0_r. split_and!; [lia|done|by left].
  - set (fs := f :: features) in *.
    destruct (Sync.merge_page _ _ _ _ _ _ _ _ _ _) as [c'|c' n] eqn:Em.
    + by intros [= <-].
    + destruct (last_page exceeded (length fs)) eqn:El.
      * intros [= <-] _. exists 0%nat, fs, exceeded.
        rewrite Nat.add_0_r. split_and!; [lia|done|by right].
      * intros Hrec Hd. destruct (IH _ _ _ _ _ Hrec Hd) as (n' & fs' & ex' & Hn & Hf & Hl).
        exists (S n'), fs', ex'. split_and!; [lia| |done].
        rewrite <- Hf. f_equal. lia.
Qed.

(** The loop reads the flag of a page only through the last-page test. *)
Lemma paging_same_features fetch fetch' total_records fuel :
  (forall offset, features_of (fetch offset) = features_of (fetch' offset)) ->
  (forall exceeded exceeded' n, last_page exceeded n = last_page exceeded' n) ->
  forall (c : conn) offset tp tu,
    paging fetch clock normalize set_cols last_page total_records fuel c offset tp tu
    = paging fetch' clock normalize set_cols last_page total_records fuel c offset tp tu.
Proof.
  intros Hf Hl. induction fuel as [|fuel IH]; intros c offset tp tu; [done|].
  cbn [Sync.paging]. specialize (Hf offset).
  destruct (fetch offset) as [|fs ex], (fetch' offset) as [|fs' ex']; try done.
  injection Hf as <-. destruct fs as [|f fs]; [done|].
  destruct (Sync.merge_page _ _ _ _ _ _ _ _ _ _) as [c'|c' n]; [done|].
  rewrite (Hl ex ex'). destruct (last_page ex' _); [done|]. apply IH.
Qed.

End Loop.

End RunFacts.

Section WellingtonFacts.

Import Sql Sync.

Context {numeric geometry : Type} `{EqDecision numeric}.
Variable geom_from_text : str -> option geometry.
Variable float_repr : pyfloat -> str.
Variable strptime_dmy : str -> res date.
Variable adapt : values -> option (staged numeric).
Variable clock : nat -> nat -> timestamp.

Local Abbreviation conn := (@connection numeric geometry).
Local Abbreviation wellington_page :=
  (Sync.wellington_page geom_from_text float_repr strptime_dmy adapt clock).
Local Abbreviation wellington_paging :=
  (Sync.wellington_paging geom_from_text float_repr strptime_dmy adapt).

Lemma res_map_elem {A B} (f : A -> res B) xs ys x :
  res_map f xs = Ok ys -> x ∈ xs -> exists y, y ∈ ys /\ f x = Ok y.
Proof.
  revert ys. induction xs as [|x0 xs IH]; intros ys Hm Hx.
  - by apply elem_of_nil in Hx.
  - cbn [res_map] in Hm. destruct (f x0) as [y0|] eqn:E0; cbn in Hm; [|done].
    destruct (res_map f xs) as [ys'|]; cbn in Hm; [|done]. injection Hm as <-.
    apply elem_of_cons in Hx as [->|Hx].
    + exists y0. split; [by left|done].
    + destruct (IH ys' eq_refl Hx) as (y & Hy & Hf). exists y. split; [by right|done].
Qed.

Lemma normalize_wellington_object_id now f v :
  normalize_wellington float_repr strptime_dmy now f = Ok v ->
  v_object_id v = feature_object_id f.
Proof.
  unfold normalize_wellington, feature_object_id, attributes_item.
  destruct (attributes f) as [| |d]; cbn; [done..|].
  destruct (wkt_string float_repr (geometry_of f)); cbn; [|done].
  destruct (if truthy _ then _ else _); cbn; [|done].
  by intros [= <-].
Qed.

Lemma wellington_select_object_id (r selected : staged numeric) :
  wellington_select r = inr selected -> object_id selected = object_id r.
Proof.
  unfold wellington_select. destruct (postcode (cols r)) as [p|]; [|by intros [= <-]].
  destruct (varchar 4 p); [|done]. by intros [= <-].
Qed.

(** Every row of a Wellington statement that went through had a key and a
    postcode that fits. *)
Lemma wellington_upsert_rows_went_through (rows : list (staged numeric)) :
  forall st st' : @exec numeric geometry,
  wellington_upsert_rows geom_from_text st rows = (st', None) ->
  forall r, r ∈ rows ->
    is_Some (object_id r) /\ exists selected, wellington_select r = inr selected.
Proof.
  induction rows as [|r0 rows IH]; intros st st' Hrows r Hr.
  - by apply elem_of_nil in Hr.
  - cbn [Sql.wellington_upsert_rows] in Hrows.
    destruct (wellington_select r0) as [e|selected] eqn:Es; [done|].
    destruct (upsert_row geom_from_text wellington_set st selected) as [e|st1] eqn:E;
      [done|].
    apply elem_of_cons in Hr as [->|Hr]; [|by eapply IH].
    apply upsert_row_inv in E as (k & g & Hk & _).
    rewrite (wellington_select_object_id _ _ Es) in Hk. rewrite Hk.
    split; by eexists.
Qed.

(** When every postcode fits, the Wellington statement is the upsert of
    the other two scripts with its own SET list. *)
Lemma wellington_upsert_rows_fitting (rows : list (staged numeric)) :
  forall st : @exec numeric geometry,
  (forall r, r ∈ rows -> wellington_select r = inr r) ->
  wellington_upsert_rows geom_from_text st rows
  = upsert_rows geom_from_text wellington_set st rows.
Proof.
  induction rows as [|r0 rows IH]; intros st Hfit; [done|].
  cbn [Sql.wellington_upsert_rows Sql.upsert_rows]. rewrite (Hfit r0) by by left.
  destruct (upsert_row geom_from_text wellington_set st r0); [done|].
  apply IH. intros r Hr. apply Hfit. by right.
Qed.

(** A page either leaves the committed table alone and raises, or
    commits. *)
Lemma wellington_page_cases (c : conn) offset features :
  (exists c', wellington_page c offset features = Raised c'
              /\ committed c' = committed c)
  \/ (exists c' n, wellington_page c offset features = Committed c' n).
Proof.
  unfold Sync.wellington_page, wellington_upsert_and_commit.
  destruct (res_map _ _) as [[|v vs]|]; [by right; eexists _, _|
                                         |by left; eexists].
  destruct (stage adapt (v :: vs)) as [rows|]; [|by left; eexists].
  destruct (wellington_execute_upsert _ _ _) as [t [e|n]];
    [by left; eexists|by right; eexists _, _].
Qed.

Lemma wellington_paging_done fetch fuel : forall (c : conn) offset tu r,
  wellington_paging fetch clock fuel c offset tu = Some r ->
  status r = Done ->
  exists n flag,
    (n < fuel)%nat /\ fetch (offset + n * 1000)%nat = Page [] flag
    /\ forall i, (i < n)%nat ->
         exists features flag', fetch (offset + i * 1000)%nat = Page features flag'
                                /\ features <> [].
Proof.
  induction fuel as [|fuel IH]; intros c offset tu r; [done|].
  cbn [Sync.wellington_paging].
  destruct (fetch offset) as [|[|f features] flag] eqn:Ef.
  - by intros [= <-].
  - intros [= <-] _. exists 0%nat, flag. rewrite Nat.add_0_r.
    split_and!; [lia|done|]. intros i Hi. lia.
  - destruct (Sync.wellington_page _ _ _ _ _ _ _ _) as [c'|c' n]; [by intros [= <-]|].
    intros Hrec Hd. destruct (IH _ _ _ _ Hrec Hd) as (n' & flag' & Hn & Hf & Hbefore).
    exists (S n'), flag'. split_and!; [lia| |].
    + rewrite <- Hf. f_equal. lia.
    + intros [|i] Hi.
      * rewrite Nat.add_0_r. by exists (f :: features), flag.
      * destruct (Hbefore i) as (fs & fl & Hfs & Hne); [lia|].
        exists fs, fl. split; [|done]. rewrite <- Hfs. f_equal. lia.
Qed.

Lemma wellington_paging_terminates fetch k : forall (c : conn) offset tu flag,
  fetch (offset + k * 1000)%nat = Page [] flag ->
  exists r, forall fuel, (k < fuel)%nat ->
    wellington_paging fetch clock fuel c offset tu = Some r.
Proof.
  induction k as [|k IH]; intros c offset tu flag Hk.
  - rewrite Nat.add_0_r in Hk. eexists. intros [|fuel] Hf; [lia|].
    cbn [Sync.wellington_paging]. by rewrite Hk.
  - destruct (fetch offset) as [|[|f features] flag0] eqn:Ef.
    + eexists. intros [|fuel] Hf; [lia|]. cbn [Sync.wellington_paging]. by rewrite Ef.
    + eexists. intros [|fuel] Hf; [lia|]. cbn [Sync.wellington_paging]. by rewrite Ef.
    + destruct (wellington_page c offset (f :: features)) as [c'|c' n] eqn:Ep.
      * eexists. intros [|fuel] Hf; [lia|]. cbn [Sync.wellington_paging].
        by rewrite Ef, Ep.
      * destruct (IH c' (offset + 1000)%nat (tu + n)%nat flag) as [r Hr].
        { rewrite <- Hk. f_equal. lia. }
        exists r. intros [|fuel] Hf; [lia|]. cbn [Sync.wellington_paging].
        rewrite Ef, Ep. apply Hr. lia.
Qed.

Lemma wellington_paging_same_features fetch fetch' fuel :
  (forall offset, features_of (fetch offset) = features_of (fetch' offset)) ->
  forall (c : conn) offset tu,
    wellington_paging fetch clock fuel c offset tu
    = wellington_paging fetch' clock fuel c offset tu.
Proof.
  intros Hf. induction fuel as [|fuel IH]; intros c offset tu; [done|].
  cbn [Sync.wellington_paging]. specialize (Hf offset).
  destruct (fetch offset) as [|fs ex], (fetch' offset) as [|fs' ex']; try done.
  injection Hf as <-. destruct fs as [|f fs]; [done|].
  destruct (Sync.wellington_page _ _ _ _ _ _ _ _) as [c'|c' n]; [done|]. apply IH.
Qed.

(** [sync_wellington_to_neon] keeps a feature that has no OBJECTID, and
    the record without a key then stops the statement: the page such a
    feature is on is never committed.  (The other two scripts skip the
    feature.) *)
Theorem wellington_feature_without_object_id_aborts_page (c : conn) (offset : nat)
    (features : list feature) (f : feature) :
  (forall v r, adapt v = Some r -> v_object_id v = PNone -> object_id r = None) ->
  f ∈ features -> feature_object_id f = PNone ->
  exists c', wellington_page c offset features = Raised c'
             /\ committed c' = committed c.
Proof.
  intros Hadapt Hf Hid.
  destruct (wellington_page_cases c offset features) as [?|(c' & n & Hc)]; [done|].
  exfalso. revert Hc. unfold Sync.wellington_page, wellington_upsert_and_commit.
  apply list_elem_of_lookup_1 in Hf as [i Hi].
  pose proof (elem_of_lookup_imap_2 (fun i f => (i, f)) features f i Hi) as Hin.
  destruct (res_map _ _) as [vs|] eqn:Em; [|done].
  destruct (res_map_elem _ _ _ _ Em Hin) as (v & Hv & Hn). cbn in Hn.
  apply normalize_wellington_object_id in Hn. rewrite Hid in Hn.
  destruct vs as [|v0 vs]; [by apply elem_of_nil in Hv|].
  destruct (stage adapt (v0 :: vs)) as [rows|] eqn:Es; [|done].
  destruct (stage_elem adapt _ _ _ Es Hv) as (r & Hr & Ha).
  pose proof (Hadapt v r Ha Hn) as Hnull.
  unfold Sql.wellington_execute_upsert.
  destruct (wellington_upsert_rows geom_from_text _ rows) as [st [e|]] eqn:E; [done|].
  destruct (wellington_upsert_rows_went_through _ _ _ E r Hr) as [[k Hk] _].
  congruence.
Qed.

(** The staging table of [sync_wellington_to_neon] takes postcodes of up
    to ten characters, the [properties] table four: a record whose
    postcode does not fit the narrower column passes the staging and then
    stops the statement, so its page is never committed. *)
Theorem wellington_long_postcode_aborts_page (c : conn) (offset : nat)
    (features : list feature) vs rows r p :
  wellington_values float_repr strptime_dmy clock offset features = Ok vs ->
  stage adapt vs = Some rows ->
  r ∈ rows -> postcode (cols r) = Some p -> varchar 4 p = None ->
  exists c', wellington_page c offset features = Raised c'
             /\ committed c' = committed c.
Proof.
  intros Hvs Hst Hr Hp Hlong.
  destruct (wellington_page_cases c offset features) as [?|(c' & n & Hc)]; [done|].
  exfalso. revert Hc. unfold Sync.wellington_page, wellington_upsert_and_commit.
  change (res_map _ (imap _ features))
    with (wellington_values float_repr strptime_dmy clock offset features).
  rewrite Hvs. destruct vs as [|v0 vs].
  { injection Hst as <-. by apply elem_of_nil in Hr. }
  rewrite Hst. unfold Sql.wellington_execute_upsert.
  destruct (wellington_upsert_rows geom_from_text _ rows) as [st [e|]] eqn:E; [done|].
  destruct (wellington_upsert_rows_went_through _ _ _ E r Hr) as [_ [selected Hs]].
  unfold wellington_select in Hs. by rewrite Hp, Hlong in Hs.
Qed.

(** [sync_wellington_to_neon] ends well only after the service has
    answered one of its requests with an empty page, every request before
    it having brought features: a short page does not end the run. *)
Theorem wellington_ends_only_on_an_empty_page (fetch : nat -> response)
    (fuel : nat) (count : count_response) (c : conn) r :
  sync_wellington_to_neon geom_from_text float_repr strptime_dmy adapt fetch clock
                          fuel count c = Some r ->
  status r = Done ->
  exists n flag,
    (n < fuel)%nat /\ fetch (n * 1000)%nat = Page [] flag
    /\ forall i, (i < n)%nat ->
         exists features flag', fetch (i * 1000)%nat = Page features flag'
                                /\ features <> [].
Proof.
  unfold Sync.sync_wellington_to_neon. destruct count as [|v]; cbn [fmap option_fmap option_map].
  { by intros [= <-]. }
  destruct (wellington_paging fetch clock fuel c 0 0) as [r0|] eqn:E; [|done].
  cbn. intros [= <-] Hd.
  apply (wellington_paging_done fetch fuel c 0%nat 0%nat r0 E).
  unfold handlers in Hd. by destruct (status r0).
Qed.

(** Once the service answers a request of [sync_wellington_to_neon] with
    an empty page the run returns, whatever the count query gave. *)
Theorem wellington_terminates_on_an_empty_page (fetch : nat -> response)
    (k : nat) (flag : bool) (count : count_response) (c : conn) :
  fetch (k * 1000)%nat = Page [] flag ->
  exists r, forall fuel, (k < fuel)%nat ->
    sync_wellington_to_neon geom_from_text float_repr strptime_dmy adapt fetch clock
                            fuel count c = Some r.
Proof.
  intros Hk. unfold Sync.sync_wellington_to_neon. destruct count as [|v]; [by eexists|].
  destruct (wellington_paging_terminates fetch k c 0%nat 0%nat flag Hk) as [r Hr].
  exists (handlers r). intros fuel Hf. by rewrite Hr.
Qed.

End WellingtonFacts.

Section RunExtras.

Import Sql Sync.

Context {numeric geometry : Type} `{EqDecision numeric}.
Variable geom_from_text : str -> option geometry.
Variable float_repr : pyfloat -> str.
Variable strptime_dmy : str -> res date.
Variable adapt : values -> option (staged numeric).
Variable clock : nat -> nat -> timestamp.

Local Abbreviation conn := (@connection numeric geometry).
Local Abbreviation sync_auckland_to_neon :=
  (Sync.sync_auckland_to_neon geom_from_text float_repr adapt).
Local Abbreviation sync_arcgis_to_neon :=
  (Sync.sync_arcgis_to_neon geom_from_text float_repr adapt).
Local Abbreviation sync_wellington_to_neon :=
  (Sync.sync_wellington_to_neon geom_from_text float_repr strptime_dmy adapt).

Lemma handlers_status (r : @report numeric geometry) : status (handlers r) = status r.
Proof. unfold handlers. by destruct (status r) eqn:E. Qed.

Lemma handlers_counters (r : @report numeric geometry) :
  total_processed (handlers r) = total_processed r
  /\ total_upserted (handlers r) = total_upserted r.
Proof. unfold handlers. by destruct (status r). Qed.

(** However a run of [sync_arcgis_to_neon] ends, the committed table is
    the one reached by merging the first n pages, each as a whole, for
    some n, and the connection holds nothing beyond it.  When the run
    failed, the page that failed is the one after those n. *)
Theorem queenstown_page_merge_all_or_nothing (fetch : nat -> response) (fuel : nat)
    (total_records : pyval) (c : conn) r :
  working c = committed c ->
  sync_arcgis_to_neon fetch clock fuel (Count total_records) c = Some r ->
  exists n,
    whole_pages geom_from_text adapt fetch clock (normalize_qldc float_repr) qldc_set
                0 (committed c) n (committed (connection_of r))
    /\ working (connection_of r) = committed (connection_of r)
    /\ (status r = Failed ->
        page_fails geom_from_text adapt fetch clock (normalize_qldc float_repr)
                   qldc_set total_records (committed (connection_of r))
                   (n * records_per_page)).
Proof.
  intros Hc. unfold Sync.sync_arcgis_to_neon, counted.
  destruct (equals_zero total_records).
  - intros [= <-]. exists 0%nat. cbn. split_and!; [constructor|done..].
  - destruct (paging _ _ _ _ _ _ _ _ _ _ _ _ _) as [r0|] eqn:E; [|done].
    intros [= <-].
    destruct (paging_whole_pages _ _ _ _ _ _ _ _ _ _ _ _ _ _ Hc E) as (n & Hw & Hk & Hf).
    exists n. split_and!; [done..|].
    rewrite handlers_status. exact Hf.
Qed.

(** The summary of [sync_auckland_to_neon] and of [sync_arcgis_to_neon]
    never counts more rows inserted or updated than records processed. *)
Theorem upserted_at_most_processed (fetch : nat -> response) (fuel : nat)
    (count : count_response) (c : conn) r :
  sync_auckland_to_neon fetch clock fuel count c = Some r
  \/ sync_arcgis_to_neon fetch clock fuel count c = Some r ->
  (total_upserted r <= total_processed r)%nat.
Proof.
  unfold Sync.sync_auckland_to_neon, Sync.sync_arcgis_to_neon, counted.
  destruct count as [|v]; [by intros [[= <-]|[= <-]]|].
  destruct (equals_zero v); [by intros [[= <-]|[= <-]]|].
  intros [Hr|Hr];
    (destruct (paging _ _ _ _ _ _ _ _ _ _ _ _ _) as [r0|] eqn:E; [|done]);
    injection Hr as <-; destruct (handlers_counters r0) as [-> ->];
    by eapply paging_counters.
Qed.

(** A count that is neither a number nor missing (a JSON null, a text)
    passes the test against zero and makes the progress line raise at the
    first page that has features: nothing is ever committed, in either
    script, and the run ends well only if the first page is empty. *)
Theorem count_that_is_no_number_commits_nothing (fetch : nat -> response)
    (fuel : nat) (v : pyval) (c : conn) :
  is_number v = false ->
  exists r,
    sync_auckland_to_neon fetch clock (S fuel) (Count v) c = Some r
    /\ sync_arcgis_to_neon fetch clock (S fuel) (Count v) c = Some r
    /\ committed (connection_of r) = committed c
    /\ total_upserted r = 0%nat
    /\ (status r = Done <-> exists flag, fetch 0%nat = Page [] flag).
Proof.
  intros Hv. unfold Sync.sync_auckland_to_neon, Sync.sync_arcgis_to_neon, counted.
  assert (equals_zero v = false) as -> by by destruct v.
  rewrite !paging_without_a_number by done.
  eexists. split; [reflexivity|]. split; [reflexivity|].
  destruct (fetch 0%nat) as [|[|f features] flag]; cbn;
    (split_and!; [done|done|]);
    (split; [intros Hs; try done; by eexists|by intros [flag' ?]]).
Qed.

(** A run that ends well has seen its last page: [sync_auckland_to_neon]
    an empty page or a short one without the exceeded-transfer-limit
    signal, [sync_arcgis_to_neon] an empty or a short one, signal or not. *)
Theorem run_ends_well_only_on_a_last_page (fetch : nat -> response) (fuel : nat)
    (v : pyval) (c : conn) r :
  equals_zero v = false ->
  status r = Done ->
  (sync_auckland_to_neon fetch clock fuel (Count v) c = Some r ->
   exists n, (n < fuel)%nat /\ exhausted (fetch (n * records_per_page)%nat) = true)
  /\ (sync_arcgis_to_neon fetch clock fuel (Count v) c = Some r ->
      exists n features flag,
        (n < fuel)%nat /\ fetch (n * records_per_page)%nat = Page features flag
        /\ (length features < records_per_page)%nat).
Proof.
  intros Hz Hd. unfold Sync.sync_auckland_to_neon, Sync.sync_arcgis_to_neon, counted.
  rewrite Hz. split.
  - destruct (paging _ _ _ _ _ _ _ _ _ _ _ _ _) as [r0|] eqn:E; [|done].
    intros [= <-]. rewrite handlers_status in Hd.
    destruct (paging_done _ _ _ _ _ _ _ _ _ _ _ _ _ _ E Hd)
      as (n & fs & ex & Hn & Hf & Hl).
    exists n. split; [done|]. cbn in Hf. rewrite Hf.
    destruct Hl as [->|Hl]; [done|]. by destruct fs.
  - destruct (paging _ _ _ _ _ _ _ _ _ _ _ _ _) as [r0|] eqn:E; [|done].
    intros [= <-]. rewrite handlers_status in Hd.
    destruct (paging_done _ _ _ _ _ _ _ _ _ _ _ _ _ _ E Hd)
      as (n & fs & ex & Hn & Hf & Hl).
    exists n, fs, ex. cbn in Hf. split_and!; [done..|].
    destruct Hl as [->|Hl]; [cbn; unfold records_per_page; lia|].
    by apply Nat.ltb_lt in Hl.
Qed.

(** [sync_arcgis_to_neon] and [sync_wellington_to_neon] never read the
    exceeded-transfer-limit signal: two services that serve the same
    features give the same run. *)
Theorem exceeded_transfer_limit_is_not_read (fetch fetch' : nat -> response)
    (fuel : nat) (count : count_response) (c : conn) :
  (forall offset, features_of (fetch offset) = features_of (fetch' offset)) ->
  sync_arcgis_to_neon fetch clock fuel count c
  = sync_arcgis_to_neon fetch' clock fuel count c
  /\ sync_wellington_to_neon fetch clock fuel count c
     = sync_wellington_to_neon fetch' clock fuel count c.
Proof.
  intros Hf. unfold Sync.sync_arcgis_to_neon, Sync.sync_wellington_to_neon, counted.
  split.
  - destruct count as [|v]; [done|]. destruct (equals_zero v); [done|].
    f_equal. by apply paging_same_features.
  - destruct count as [|v]; [done|]. f_equal.
    by apply wellington_paging_same_features.
Qed.

(** A first page of fewer than a thousand features ends
    [sync_arcgis_to_neon] after one request, also when the service flags
    the page as cut short by its transfer limit. *)
Theorem short_first_page_ends_queenstown_run (fetch : nat -> response)
    (features : list feature) (flag : bool) (fuel : nat) (count : count_response)
    (c : conn) :
  fetch 0%nat = Page features flag ->
  (length features < records_per_page)%nat ->
  sync_arcgis_to_neon fetch clock (S fuel) count c
  = sync_arcgis_to_neon fetch clock 1 count c.
Proof.
  intros Hf Hl. unfold Sync.sync_arcgis_to_neon, counted.
  destruct count as [|v]; [done|]. destruct (equals_zero v); [done|].
  f_equal. cbn [Sync.paging]. rewrite Hf. destruct features as [|f features]; [done|].
  destruct (Sync.merge_page _ _ _ _ _ _ _ _ _ _) as [c'|c' n]; [done|].
  unfold qldc_last_page. by rewrite (proj2 (Nat.ltb_lt _ _) Hl).
Qed.

End RunExtras.

Lemma wellington_feature_without_object_id_aborts_page_witness :
  exists c',
    Sync.wellington_page Sample.geom_from_text Sample.float_repr Sample.strptime_dmy
      Sample.adapt Sample.clock (Sql.Connection ∅ ∅) 0 [Cases.zero_area; Sample.nameless]
    = Sync.Raised c'
    /\ Sql.committed c' = ∅.
Proof.
  apply (wellington_feature_without_object_id_aborts_page Sample.geom_from_text
           Sample.float_repr Sample.strptime_dmy Sample.adapt Sample.clock
           (Sql.Connection ∅ ∅) 0 [Cases.zero_area; Sample.nameless] Sample.nameless).
  - intros v r [= <-] Hv. cbn. by rewrite Hv.
  - right. left.
  - reflexivity.
Defined.

Lemma wellington_long_postcode_aborts_page_witness :
  exists c',
    Sync.wellington_page Sample.geom_from_text Sample.float_repr Sample.strptime_dmy
      Sample.adapt Sample.clock (Sql.Connection ∅ ∅) 0 [Cases.long_postcode]
    = Sync.Raised c'
    /\ Sql.committed c' = ∅.
Proof.
  eapply (wellington_long_postcode_aborts_page Sample.geom_from_text Sample.float_repr
            Sample.strptime_dmy Sample.adapt Sample.clock (Sql.Connection ∅ ∅) 0
            [Cases.long_postcode] _ _ _ (u "60110")).
  - vm_compute. reflexivity.
  - vm_compute. reflexivity.
  - left.
  - reflexivity.
  - reflexivity.
Defined.

Lemma wellington_ends_only_on_an_empty_page_witness :
  exists r,
    Cases.wellington_run = Some r
    /\ exists n flag,
         (n < 5)%nat
         /\ match (n * 1000)%nat with
            | O => Sync.Page [Cases.zero_area] false
            | _ => Sync.Page [] false
            end = Sync.Page [] flag
         /\ forall i, (i < n)%nat ->
              exists features flag',
                match (i * 1000)%nat with
                | O => Sync.Page [Cases.zero_area] false
                | _ => Sync.Page [] false
                end = Sync.Page features flag'
                /\ features <> [].
Proof.
  eexists. split.
  - vm_compute. reflexivity.
  - eapply (wellington_ends_only_on_an_empty_page Sample.geom_from_text Sample.float_repr
             Sample.strptime_dmy Sample.adapt Sample.clock
             (fun offset => match offset with
                            | O => Sync.Page [Cases.zero_area] false
                            | _ => Sync.Page [] false
                            end)
             5 (Sync.Count (PInt 1)) (Sql.Connection ∅ ∅)).
    + vm_compute. reflexivity.
    + reflexivity.
Defined.

Lemma wellington_terminates_on_an_empty_page_witness :
  exists r, forall fuel, (1 < fuel)%nat ->
    Sync.sync_wellington_to_neon Sample.geom_from_text Sample.float_repr
      Sample.strptime_dmy Sample.adapt Sample.two_requests Sample.clock fuel
      (Sync.Count (PInt 2)) (Sql.Connection ∅ ∅) = Some r.
Proof.
  apply (wellington_terminates_on_an_empty_page Sample.geom_from_text Sample.float_repr
           Sample.strptime_dmy Sample.adapt Sample.clock Sample.two_requests 1 false).
  reflexivity.
Defined.

Lemma queenstown_page_merge_all_or_nothing_witness :
  exists r,
    Cases.aborted_qldc_run = Some r
    /\ exists n,
         Sync.whole_pages Sample.geom_from_text Sample.adapt Sample.failing_second
           Sample.clock (normalize_qldc Sample.float_repr) Sql.qldc_set
           0 ∅ n (Sql.committed (Sync.connection_of r))
         /\ Sql.working (Sync.connection_of r) = Sql.committed (Sync.connection_of r)
         /\ (Sync.status r = Sync.Failed ->
             Sync.page_fails Sample.geom_from_text Sample.adapt Sample.failing_second
               Sample.clock (normalize_qldc Sample.float_repr) Sql.qldc_set
               (PInt 2) (Sql.committed (Sync.connection_of r))
               (n * Sync.records_per_page)).
Proof.
  eexists. split.
  - vm_compute. reflexivity.
  - apply (queenstown_page_merge_all_or_nothing Sample.geom_from_text Sample.float_repr
             Sample.adapt Sample.clock Sample.failing_second 5 (PInt 2)
             (Sql.Connection ∅ ∅)).
    + reflexivity.
    + vm_compute. reflexivity.
Defined.

Lemma upserted_at_most_processed_witness :
  exists r,
    Cases.auckland_run = Some r
    /\ (Sync.total_upserted r <= Sync.total_processed r)%nat.
Proof.
  eexists. split.
  - vm_compute. reflexivity.
  - apply (upserted_at_most_processed Sample.geom_from_text Sample.float_repr
             Sample.adapt Sample.clock Sample.two_requests 5 (Sync.Count (PInt 2))
             (Sql.Connection ∅ ∅)).
    left. vm_compute. reflexivity.
Defined.

Lemma count_that_is_no_number_commits_nothing_witness :
  exists r,
    Sync.sync_auckland_to_neon Sample.geom_from_text Sample.float_repr Sample.adapt
      Sample.two_requests Sample.clock 1 (Sync.Count PNone) (Sql.Connection ∅ ∅) = Some r
    /\ Sync.sync_arcgis_to_neon Sample.geom_from_text Sample.float_repr Sample.adapt
         Sample.two_requests Sample.clock 1 (Sync.Count PNone) (Sql.Connection ∅ ∅)
       = Some r
    /\ Sql.committed (Sync.connection_of r) = ∅
    /\ Sync.total_upserted r = 0%nat
    /\ (Sync.status r = Sync.Done
        <-> exists flag, Sample.two_requests 0 = Sync.Page [] flag).
Proof.
  apply (count_that_is_no_number_commits_nothing Sample.geom_from_text
           Sample.float_repr Sample.adapt Sample.clock Sample.two_requests 0 PNone
           (Sql.Connection ∅ ∅)).
  reflexivity.
Defined.

Lemma run_ends_well_only_on_a_last_page_witness :
  exists n, (n < 5)%nat
    /\ Sync.exhausted (Sample.two_requests (n * Sync.records_per_page)) = true.
Proof.
  destruct (run_ends_well_only_on_a_last_page Sample.geom_from_text Sample.float_repr
              Sample.adapt Sample.clock Sample.two_requests 5 (PInt 2)
              (Sql.Connection ∅ ∅)
              (default (Sync.Report Sync.Failed (Sql.Connection ∅ ∅) 0 0)
                       Cases.auckland_run))
    as [Hauckland _].
  - reflexivity.
  - vm_compute. reflexivity.
  - apply Hauckland. vm_compute. reflexivity.
Defined.

Lemma exceeded_transfer_limit_is_not_read_witness :
  Sync.sync_arcgis_to_neon Sample.geom_from_text Sample.float_repr Sample.adapt
    Sample.two_requests Sample.clock 5 (Sync.Count (PInt 2)) (Sql.Connection ∅ ∅)
  = Sync.sync_arcgis_to_neon Sample.geom_from_text Sample.float_repr Sample.adapt
      Cases.two_requests_unflagged Sample.clock 5 (Sync.Count (PInt 2))
      (Sql.Connection ∅ ∅)
  /\ Sync.sync_wellington_to_neon Sample.geom_from_text Sample.float_repr
       Sample.strptime_dmy Sample.adapt Sample.two_requests Sample.clock 5
       (Sync.Count (PInt 2)) (Sql.Connection ∅ ∅)
     = Sync.sync_wellington_to_neon Sample.geom_from_text Sample.float_repr
         Sample.strptime_dmy Sample.adapt Cases.two_requests_unflagged Sample.clock 5
         (Sync.Count (PInt 2)) (Sql.Connection ∅ ∅).
Proof.
  apply (exceeded_transfer_limit_is_not_read Sample.geom_from_text Sample.float_repr
           Sample.strptime_dmy Sample.adapt Sample.clock Sample.two_requests
           Cases.two_requests_unflagged 5 (Sync.Count (PInt 2)) (Sql.Connection ∅ ∅)).
  by intros [|offset].
Defined.

Lemma short_first_page_ends_queenstown_run_witness :
  Sync.sync_arcgis_to_neon Sample.geom_from_text Sample.float_repr Sample.adapt
    Cases.capped Sample.clock 3 (Sync.Count (PInt 5000)) (Sql.Connection ∅ ∅)
  = Sync.sync_arcgis_to_neon Sample.geom_from_text Sample.float_repr Sample.adapt
      Cases.capped Sample.clock 1 (Sync.Count (PInt 5000)) (Sql.Connection ∅ ∅).
Proof.
  apply (short_first_page_ends_queenstown_run Sample.geom_from_text Sample.float_repr
           Sample.adapt Sample.clock Cases.capped
           [Sample.parcel_101; Sample.nameless] true 2 (Sync.Count (PInt 5000))
           (Sql.Connection ∅ ∅)).
  - reflexivity.
  - unfold Sync.records_per_page. cbn. lia.
Defined.

(** ** A run over data the table already holds *)

Section UnchangedData.

Import Sql Sync.

Context {numeric geometry : Type} `{EqDecision numeric}.
Variable geom_from_text : str -> option geometry.
Variable float_repr : pyfloat -> str.
Variable adapt : values -> option (staged numeric).
Variable fetch : nat -> response.
Variable clock : nat -> nat -> timestamp.

Local Abbreviation row := (columns numeric (option geometry)).
Local Abbreviation table := (gmap Z row).
Local Abbreviation conn := (@connection numeric geometry).
Local Abbreviation paging := (Sync.paging geom_from_text adapt fetch clock).
Local Abbreviation held := (held geom_from_text).
Local Abbreviation nothing_new := (nothing_new geom_from_text adapt fetch clock).

Lemma held_rows_merge_to_nothing (set_cols : row -> row -> row) (t : table) rows :
  forallb (held t) rows = true ->
  execute_upsert geom_from_text set_cols t rows = (t, inr 0%nat).
Proof.
  intros Hh. unfold Sql.execute_upsert.
  rewrite (upsert_rows_noop geom_from_text set_cols rows t); [done|].
  intros r Hr%list_elem_of_In. rewrite forallb_forall in Hh. specialize (Hh r Hr).
  unfold held in Hh.
  destruct (object_id r) as [k|] eqn:Ek; [|done].
  destruct (ST_GeomFromText geom_from_text (geom (cols r))) as [e|g] eqn:Eg; [done|].
  destruct (t !! k) as [v|] eqn:Ev; [|done].
  exists k, g, v. split_and!; [done..|]. by apply negb_true_iff.
Qed.

Lemma paging_nothing_new normalize (set_cols : row -> row -> row) last_page
    total_records (t : table) :
  nothing_new normalize t ->
  forall fuel offset tp r,
    paging normalize set_cols last_page total_records fuel (Connection t t) offset tp 0
    = Some r ->
    committed (connection_of (handlers r)) = t /\ total_upserted r = 0%nat.
Proof.
  intros Hn. induction fuel as [|fuel IH]; intros offset tp r; [done|].
  cbn [Sync.paging]. specialize (Hn offset).
  destruct (fetch offset) as [|[|f features] exceeded].
  - by intros [= <-].
  - by intros [= <-].
  - set (fs := f :: features) in *. unfold Sync.merge_page, upsert_and_commit.
    destruct (progress _ _); [|cbv beta iota; by intros [= <-]].
    destruct (all_values _ _ _ _) as [vs|]; [|cbv beta iota; by intros [= <-]].
    destruct (stage adapt vs) as [rows|]; [|cbv beta iota; by intros [= <-]].
    cbn [working]. rewrite (held_rows_merge_to_nothing _ _ _ Hn).
    cbv beta iota. cbn [commit write working committed]. rewrite Nat.add_0_r.
    destruct (last_page exceeded (length fs)); [by intros [= <-]|].
    apply IH.
Qed.

(** When every record the service serves is in the table with the same
    capital value and physical address, a run of [sync_auckland_to_neon]
    or of [sync_arcgis_to_neon] leaves the committed table as it is and
    counts no row inserted or updated, however it ends: no [last_updated]
    is refreshed. *)
Theorem unchanged_data_upserts_nothing (fuel : nat) (count : count_response)
    (t : table) r :
  (nothing_new (normalize_auckland float_repr) t
   /\ sync_auckland_to_neon geom_from_text float_repr adapt fetch clock fuel count
        (Connection t t) = Some r)
  \/ (nothing_new (normalize_qldc float_repr) t
      /\ sync_arcgis_to_neon geom_from_text float_repr adapt fetch clock fuel count
           (Connection t t) = Some r) ->
  committed (connection_of r) = t /\ total_upserted r = 0%nat.
Proof.
  unfold Sync.sync_auckland_to_neon, Sync.sync_arcgis_to_neon, counted.
  destruct count as [|v]; [by intros [[_ [= <-]]|[_ [= <-]]]|].
  destruct (equals_zero v); [by intros [[_ [= <-]]|[_ [= <-]]]|].
  intros [[Hn Hr]|[Hn Hr]];
    (destruct (Sync.paging _ _ _ _ _ _ _ _ _ _ _ _ _) as [r0|] eqn:E; [|done]);
    injection Hr as <-;
    destruct (paging_nothing_new _ _ _ _ _ Hn _ _ _ _ E) as [Ht Hu];
    (split; [done|]); unfold handlers; by destruct (status r0).
Qed.

End UnchangedData.

Lemma unchanged_data_upserts_nothing_witness :
  exists r,
    Sync.sync_auckland_to_neon Sample.geom_from_text Sample.float_repr Sample.adapt
      Sample.two_requests (fun offset i => Sample.clock offset i + 86400)%Z 5
      (Sync.Count (PInt 2)) (Sql.Connection Cases.loaded Cases.loaded) = Some r
    /\ Sql.committed (Sync.connection_of r) = Cases.loaded
    /\ Sync.total_upserted r = 0%nat.
Proof.
  eexists. split.
  - vm_compute. reflexivity.
  - eapply (unchanged_data_upserts_nothing Sample.geom_from_text Sample.float_repr
              Sample.adapt Sample.two_requests
              (fun offset i => Sample.clock offset i + 86400)%Z 5
              (Sync.Count (PInt 2)) Cases.loaded).
    left. split.
    + intros [|offset]; vm_compute; reflexivity.
    + vm_compute. reflexivity.
Defined.

(** ** Wellington: land areas and whole pages *)

(** In [sync_wellington_to_neon] a land area that arrives as a number
    other than zero is stored as that number, an integer as the float of
    the same value; only an integer beyond the range of a float makes the
    loop body raise. *)
Theorem wellington_numeric_land_area (float_repr : pyfloat -> str)
    (strptime_dmy : str -> res date) (now : timestamp) (f : feature)
    (d : gmap str pyval) :
  attributes f = Present d ->
  malformed (geometry_of f) = false ->
  (forall x, attr_get d "LandArea" = PFloat x -> float_is_zero x = false ->
     exists v, normalize_wellington float_repr strptime_dmy now f = Ok v
               /\ v_survey_area v = PFloat x)
  /\ (forall z, attr_get d "LandArea" = PInt z -> z <> 0%Z ->
        if int_fits_float z
        then exists v, normalize_wellington float_repr strptime_dmy now f = Ok v
                       /\ v_survey_area v = PFloat (FDec (z <? 0)%Z (Z.abs_N z) 0)
        else normalize_wellington float_repr strptime_dmy now f = Raise OverflowError).
Proof.
  intros Ha Hg.
  pose proof (wkt_string_cases float_repr (geometry_of f)) as Hw.
  rewrite Hg in Hw. destruct Hw as [w Hw].
  unfold normalize_wellington, attributes_item. rewrite Ha. cbn [mbind res_bind].
  rewrite Hw. cbn [mbind res_bind]. split.
  - intros x -> Hx. cbn [truthy py_float]. rewrite Hx. cbn. by eexists.
  - intros z -> Hz. cbn [truthy py_float]. rewrite (proj2 (Z.eqb_neq z 0) Hz).
    cbn [negb]. unfold float_of_int. destruct (int_fits_float z); cbn; [by eexists|done].
Qed.

Lemma wellington_numeric_land_area_witness :
  exists v,
    normalize_wellington Sample.float_repr Sample.strptime_dmy 0%Z Cases.measured = Ok v
    /\ v_survey_area v = PFloat (FDec false 450 0).
Proof.
  destruct (wellington_numeric_land_area Sample.float_repr Sample.strptime_dmy 0%Z
              Cases.measured Cases.measured_attributes) as [_ Hint].
  - reflexivity.
  - reflexivity.
  - apply (Hint 450%Z); [reflexivity|lia].
Defined.

Section WellingtonRun.

Import Sql Sync.

Context {numeric geometry : Type} `{EqDecision numeric}.
Variable geom_from_text : str -> option geometry.
Variable float_repr : pyfloat -> str.
Variable strptime_dmy : str -> res date.
Variable adapt : values -> option (staged numeric).
Variable fetch : nat -> response.
Variable clock : nat -> nat -> timestamp.

Local Abbreviation conn := (@connection numeric geometry).
Local Abbreviation wellington_page :=
  (Sync.wellington_page geom_from_text float_repr strptime_dmy adapt clock).
Local Abbreviation wellington_paging :=
  (Sync.wellington_paging geom_from_text float_repr strptime_dmy adapt fetch clock).
Local Abbreviation wellington_values := (wellington_values float_repr strptime_dmy clock).
Local Abbreviation wellington_whole_pages :=
  (wellington_whole_pages geom_from_text float_repr strptime_dmy adapt fetch clock).

Lemma res_map_length {A B} (f : A -> res B) xs ys :
  res_map f xs = Ok ys -> length ys = length xs.
Proof.
  revert ys. induction xs as [|x xs IH]; intros ys; [by intros [= <-]|].
  cbn [res_map]. destruct (f x); cbn; [|done].
  destruct (res_map f xs) as [ys'|]; cbn; [|done].
  intros [= <-]. cbn. by rewrite (IH ys').
Qed.

(** A page of features either leaves the committed table alone and
    raises, or commits the merge of all its records. *)
Lemma wellington_page_commits (c : conn) offset features :
  features <> [] ->
  (exists c', wellington_page c offset features = Raised c'
              /\ committed c' = committed c)
  \/ (exists vs rows t1 rows_affected,
        wellington_page c offset features = Committed (Connection t1 t1) rows_affected
        /\ wellington_values offset features = Ok vs
        /\ stage adapt vs = Some rows
        /\ wellington_merged geom_from_text (working c) rows t1 rows_affected).
Proof.
  intros Hne. unfold Sync.wellington_page, wellington_upsert_and_commit.
  change (res_map _ (imap _ features)) with (wellington_values offset features).
  destruct (wellington_values offset features) as [vs|] eqn:Ev;
    [|left; eexists; split; reflexivity].
  destruct vs as [|v vs].
  { apply res_map_length in Ev. rewrite length_imap in Ev. by destruct features. }
  destruct (stage adapt (v :: vs)) as [rows|] eqn:Es;
    [|left; eexists; split; reflexivity].
  destruct (wellington_execute_upsert _ _ _) as [t1 [e|n]] eqn:E;
    [left; eexists; split; reflexivity|].
  right. exists (v :: vs), rows, t1, n.
  split_and!; [reflexivity|reflexivity|exact Es|exact E].
Qed.

Lemma wellington_paging_whole_pages fuel : forall (c : conn) offset tu r,
  working c = committed c ->
  wellington_paging fuel c offset tu = Some r ->
  exists n,
    wellington_whole_pages offset (committed c) n
                           (committed (connection_of (handlers r)))
    /\ working (connection_of (handlers r)) = committed (connection_of (handlers r)).
Proof.
  induction fuel as [|fuel IH]; intros c offset tu r Hc; [done|].
  destruct c as [tc tw]. cbn in Hc. subst tw. cbn [Sync.wellington_paging committed].
  destruct (fetch offset) as [|features flag] eqn:Ef.
  { intros [= <-]. exists 0%nat. cbn. split; [constructor|done]. }
  destruct features as [|f features].
  { intros [= <-]. exists 0%nat. cbn. split; [constructor|done]. }
  set (fs := f :: features) in *.
  destruct (wellington_page_commits (Connection tc tc) offset fs ltac:(done))
    as [(c' & -> & Hc')|(vs & rows & t1 & n1 & -> & Hvs & Hst & Hm)].
  - intros [= <-]. exists 0%nat. cbn in *. rewrite Hc'. split; [constructor|done].
  - intros Hrec. apply IH in Hrec as (n & Hw & Hwork); [|done].
    exists (S n). split; [|done]. cbn in Hm. econstructor; done.
Qed.


End WellingtonRun.

